(** * Slash-command schema model of [discord/ext/commands/commands.py]

    A shallow embedding of the command schema classes
    ([ApplicationCommandOptionChoice], [ApplicationCommandOption],
    [ApplicationCommand]), of the staging dictionary
    [_pre_registration_commands], of [slash_command] and of
    [register_commands], followed by the properties established about
    them. *)

From Stdlib Require Import ZArith String List Bool Lia.
From stdpp Require Import base decidable option list strings gmap.
Import ListNotations.

Local Set Warnings "-register-all".

Local Open Scope string_scope.
Local Open Scope list_scope.
Local Open Scope Z_scope.

(** ** Exceptions and the interpreter monad *)

(** The exceptions the modelled code can raise.  [NameError] is what
    line 366 raises: [InvalidArgument] is imported under
    [typing.TYPE_CHECKING] only, so the name is unbound at run time. *)
Inductive exn : Type :=
| InvalidSchema
| TypeError
| AttributeError
| NameError
| HTTPException.

Inductive result (A : Type) : Type :=
| Ok (a : A)
| Raise (e : exn).
Arguments Ok {A} a.
Arguments Raise {A} e.

(** Object identities are allocated from a counter: [Py A] threads the next
    free address and stops at the first exception. *)
Definition Py (A : Type) : Type := nat -> result (A * nat).

Definition ret {A} (a : A) : Py A := fun h => Ok (a, h).
Definition raise {A} (e : exn) : Py A := fun _ => Raise e.
Definition bind {A B} (m : Py A) (k : A -> Py B) : Py B :=
  fun h => match m h with
           | Ok (a, h') => k a h'
           | Raise e => Raise e
           end.
Definition new_object : Py nat := fun h => Ok (h, S h).

Notation "x <-- m ;; k" := (bind m (fun x => k))
  (at level 100, m at next level, right associativity).

(** ** Enumerations *)

(** The attribute names of [ApplicationCommandOptionType], in declaration
    order. *)
Inductive ApplicationCommandOptionType : Type :=
| SUB_COMMAND
| SUB_COMMAND_GROUP
| STRING
| INTEGER
| BOOLEAN
| USER
| CHANNEL
| ROLE
| MENTIONABLE
| NUMBER.

Definition OptionType_names : list ApplicationCommandOptionType :=
  [SUB_COMMAND; SUB_COMMAND_GROUP; STRING; INTEGER; BOOLEAN;
   USER; CHANNEL; ROLE; MENTIONABLE; NUMBER].

(** [t.value] as written on lines 27-36. *)
Definition OptionType_value (t : ApplicationCommandOptionType) : Z :=
  match t with
  | SUB_COMMAND => 1
  | SUB_COMMAND_GROUP => 2
  | STRING => 3
  | INTEGER => 4
  | BOOLEAN => 5
  | USER => 6
  | CHANNEL => 7
  | ROLE => 8
  | MENTIONABLE => 8
  | NUMBER => 10
  end.

Inductive ApplicationCommandType : Type :=
| CHAT_INPUT
| CT_USER
| MESSAGE.

Definition CommandType_names : list ApplicationCommandType :=
  [CHAT_INPUT; CT_USER; MESSAGE].

Definition CommandType_value (t : ApplicationCommandType) : Z :=
  match t with
  | CHAT_INPUT => 1
  | CT_USER => 2
  | MESSAGE => 3
  end.

(** Modelled from the spec: the call [EnumClass(value)] of
    [discord.enums.Enum], whose metaclass is not part of the modelled file.
    The spec asks for "an explicit integer-to-tag conversion that fails on
    unknown values" and names the failure [InvalidSchema]; a value declared
    twice denotes the member declared first. *)
Definition enum_call {E : Type} (names : list E) (value : E -> Z) (v : Z)
  : result E :=
  match List.find (fun t => value t =? v) names with
  | Some t => Ok t
  | None => Raise InvalidSchema
  end.

Definition OptionType_call : Z -> result ApplicationCommandOptionType :=
  enum_call OptionType_names OptionType_value.

Definition CommandType_call : Z -> result ApplicationCommandType :=
  enum_call CommandType_names CommandType_value.

(** Modelled from the spec: an element of a [channel_types] list.  The class
    [discord.ChannelType] is not part of the modelled file; a member is
    represented by the wire integer its [.value] lowers to, and a bare
    integer (what a payload carries) is kept apart from a member, as the
    [isinstance(self.type, int)] test of [__post_init__] keeps them apart
    for option types. *)
Inductive channel_item : Type :=
| ChannelMember (v : Z)
| ChannelInt (v : Z).

Global Instance channel_item_eq_dec : EqDecision channel_item.
Proof. solve_decision. Defined.

(** [channel_type.value]: an [int] has no attribute [value]. *)
Definition channel_item_value (c : channel_item) : result Z :=
  match c with
  | ChannelMember v => Ok v
  | ChannelInt _ => Raise AttributeError
  end.

(** ** Python comparisons *)

(** [x != y] on values whose [==] is structural ([str], [int], [bool],
    [None]). *)
Definition py_ne {A} `{EqDecision A} (x y : A) : bool :=
  negb (bool_decide (x = y)).

Section ListCompare.

Context {A B : Type}.

(** [same x y]: [x is y]; [eq x y]: [x == y]. *)
Variable same : A -> B -> bool.
Variable eq : A -> B -> bool.

(** [list == list]: equal lengths and, position by position, the same object
    or equal objects (the identity test comes first). *)
Fixpoint list_eq (l1 : list A) (l2 : list B) : bool :=
  match l1, l2 with
  | [], [] => true
  | x :: l1', y :: l2' => (same x y || eq x y) && list_eq l1' l2'
  | _, _ => false
  end.

(** [x != y] where each side is [None] or a list. *)
Definition optlist_ne (x : option (list A)) (y : option (list B)) : bool :=
  match x, y with
  | None, None => false
  | Some l1, Some l2 => negb (list_eq l1 l2)
  | _, _ => true
  end.

End ListCompare.

(** ** ApplicationCommandOptionChoice *)

(** [value: typing.Union[str | int | float]]; float values are left out of
    the model. *)
Inductive choice_value : Type :=
| ChoiceStr (s : string)
| ChoiceInt (z : Z).

Global Instance choice_value_eq_dec : EqDecision choice_value.
Proof. solve_decision. Defined.

Record ApplicationCommandOptionChoice : Type := mkChoice {
  choice_name : string;
  choice_value_of : choice_value
}.

(** [ApplicationCommandOptionChoice.__eq__], lines 95-100. *)
Definition ApplicationCommandOptionChoice_eq
  (self other : ApplicationCommandOptionChoice) : bool :=
  if py_ne (choice_name self) (choice_name other)
     || py_ne (choice_value_of self) (choice_value_of other)
  then false else true.

(** [ApplicationCommandOptionChoice.__ne__], lines 102-103. *)
Definition ApplicationCommandOptionChoice_ne
  (self other : ApplicationCommandOptionChoice) : bool :=
  negb (ApplicationCommandOptionChoice_eq self other).

(** ** ApplicationCommandOption *)

Inductive ApplicationCommandOption : Type := mkOption {
  opt_id : nat;  (* id(self) *)
  opt_type : ApplicationCommandOptionType;
  opt_name : string;
  opt_description : string;
  opt_required : bool;
  opt_choices : option (list ApplicationCommandOptionChoice);
  opt_options : option (list ApplicationCommandOption);
  opt_channel_types : option (list channel_item);
  opt_min_value : option Z;
  opt_max_value : option Z;
  opt_autocomplete : bool
}.

(** [x is y] for two options. *)
Definition option_is (x y : ApplicationCommandOption) : bool :=
  Nat.eqb (opt_id x) (opt_id y).

(** A choice is never an option: they are never the same object, and
    [ApplicationCommandOptionChoice.__eq__] answers [False] on anything
    that is not a choice (lines 96-97). *)
Definition choice_is_option
  (c : ApplicationCommandOptionChoice) (o : ApplicationCommandOption) : bool :=
  false.
Definition choice_eq_option
  (c : ApplicationCommandOptionChoice) (o : ApplicationCommandOption) : bool :=
  false.

(** [ApplicationCommandOption.__eq__], lines 164-178; the last disjunct
    compares [self.choices] with [other.options], as the source does. *)
Fixpoint ApplicationCommandOption_eq
  (self other : ApplicationCommandOption) {struct self} : bool :=
  if py_ne (OptionType_value (opt_type self)) (OptionType_value (opt_type other))
     || py_ne (opt_name self) (opt_name other)
     || py_ne (opt_description self) (opt_description other)
     || py_ne (opt_autocomplete self) (opt_autocomplete other)
     || py_ne (opt_max_value self) (opt_max_value other)
     || py_ne (opt_min_value self) (opt_min_value other)
     || py_ne (opt_channel_types self) (opt_channel_types other)
     || py_ne (opt_required self) (opt_required other)
     || optlist_ne option_is ApplicationCommandOption_eq
          (opt_options self) (opt_options other)
     || optlist_ne choice_is_option choice_eq_option
          (opt_choices self) (opt_options other)
  then false else true.

(** [ApplicationCommandOption.__ne__], lines 180-181. *)
Definition ApplicationCommandOption_ne
  (self other : ApplicationCommandOption) : bool :=
  negb (ApplicationCommandOption_eq self other).

(** ** Keyword arguments and payload mappings

    A call [cls( **data)] binds the keys of a mapping to the parameters of
    the constructor, so a constructor is modelled on the mapping of its
    keyword arguments: a key that is absent is [None] here.  The mappings
    built by [__repr__] are values of the same types. *)

Definition rbind {A B} (m : result A) (k : A -> result B) : result B :=
  match m with
  | Ok a => k a
  | Raise e => Raise e
  end.

Notation "x <-? m ;; k" := (rbind m (fun x => k))
  (at level 100, m at next level, right associativity).

Definition lift {A} (m : result A) : Py A :=
  fun h => match m with
           | Ok a => Ok (a, h)
           | Raise e => Raise e
           end.

Fixpoint rmap {A B} (f : A -> result B) (l : list A) : result (list B) :=
  match l with
  | [] => Ok []
  | x :: l' => y <-? f x ;; ys <-? rmap f l' ;; Ok (y :: ys)
  end.

(** What the [type] keyword may hold: an [int] or a member of the
    enumeration [E]. *)
Inductive type_arg (E : Type) : Type :=
| TypeInt (z : Z)
| TypeMember (t : E).
Arguments TypeInt {E} z.
Arguments TypeMember {E} t.

(** An element of a list handed to a constructor: an instance of the class
    [T] already, or a raw mapping [K]. *)
Inductive item (T K : Type) : Type :=
| Inst (x : T)
| Raw (kw : K).
Arguments Inst {T K} x.
Arguments Raw {T K} kw.

Definition is_inst {T K} (x : item T K) : bool :=
  match x with
  | Inst _ => true
  | Raw _ => false
  end.

(** The instances of a list in which every element is one. *)
Definition instances {T K} (l : list (item T K)) : list T :=
  flat_map (fun x => match x with Inst o => [o] | Raw _ => [] end) l.

Record ChoiceKwargs : Type := mkChoiceKwargs {
  ckw_name : option string;
  ckw_value : option choice_value
}.

(** [ApplicationCommandOptionChoice( **kw)]: both fields are required. *)
Definition ApplicationCommandOptionChoice_init (kw : ChoiceKwargs)
  : result ApplicationCommandOptionChoice :=
  match ckw_name kw, ckw_value kw with
  | Some name, Some value => Ok (mkChoice name value)
  | _, _ => Raise TypeError
  end.

(** [ApplicationCommandOptionChoice.__repr__], lines 88-93. *)
Definition ApplicationCommandOptionChoice_repr
  (self : ApplicationCommandOptionChoice) : ChoiceKwargs :=
  {| ckw_name := Some (choice_name self);
     ckw_value := Some (choice_value_of self) |}.

Inductive OptionKwargs : Type := mkOptionKwargs {
  kw_type : option (type_arg ApplicationCommandOptionType);
  kw_name : option string;
  kw_description : option string;
  kw_required : option bool;
  kw_choices : option (list (item ApplicationCommandOptionChoice ChoiceKwargs));
  kw_options : option (list (item ApplicationCommandOption OptionKwargs));
  kw_channel_types : option (list channel_item);
  kw_min_value : option Z;
  kw_max_value : option Z;
  kw_autocomplete : option bool
}.

(** Line 121 (and 208): an [int] is passed to the enumeration, a member is
    kept. *)
Definition coerce_type {E} (call : Z -> result E) (t : type_arg E) : result E :=
  match t with
  | TypeInt z => call z
  | TypeMember m => Ok m
  end.

(** [Cls( **x)] on an element of a list under reconstruction: an instance is
    not a mapping. *)
Definition star_star {T K} (x : item T K) : result K :=
  match x with
  | Raw kw => Ok kw
  | Inst _ => Raise TypeError
  end.

(** Lines 122-126. *)
Definition post_init_choices
  (choices : option (list (item ApplicationCommandOptionChoice ChoiceKwargs)))
  : result (option (list ApplicationCommandOptionChoice)) :=
  match choices with
  | None => Ok None
  | Some l =>
      if existsb (fun x => negb (is_inst x)) l
      then cs <-? rmap (fun x => kw <-? star_star x ;;
                                 ApplicationCommandOptionChoice_init kw) l ;;
           Ok (Some cs)
      else Ok (Some (instances l))
  end.

(** [ApplicationCommandOption( **kw)]: the generated [__init__], which
    requires [type], [name] and [description] and defaults the rest, then
    [__post_init__], lines 119-131. *)
Fixpoint ApplicationCommandOption_init (kw : OptionKwargs) {struct kw}
  : Py ApplicationCommandOption :=
  match kw_type kw, kw_name kw, kw_description kw with
  | Some type0, Some name, Some description =>
      self <-- new_object ;;
      type <-- lift (coerce_type OptionType_call type0) ;;
      choices <-- lift (post_init_choices (kw_choices kw)) ;;
      options <--
        match kw_options kw with
        | None => ret None
        | Some l =>
            if existsb (fun x => negb (is_inst x)) l
            then os <--
                   (fix build (l : list (item ApplicationCommandOption OptionKwargs))
                      : Py (list ApplicationCommandOption) :=
                      match l with
                      | [] => ret []
                      | Raw kw' :: l' =>
                          o <-- ApplicationCommandOption_init kw' ;;
                          os <-- build l' ;;
                          ret (o :: os)
                      | Inst _ :: _ => raise TypeError
                      end) l ;;
                 ret (Some os)
            else ret (Some (instances l))
        end ;;
      ret {| opt_id := self;
             opt_type := type;
             opt_name := name;
             opt_description := description;
             opt_required := default false (kw_required kw);
             opt_choices := choices;
             opt_options := options;
             opt_channel_types := kw_channel_types kw;
             opt_min_value := kw_min_value kw;
             opt_max_value := kw_max_value kw;
             opt_autocomplete := default false (kw_autocomplete kw) |}
  | _, _, _ => raise TypeError
  end.

(** [ApplicationCommandOption.from_payload], lines 183-187. *)
Definition ApplicationCommandOption_from_payload (data : option OptionKwargs)
  : Py ApplicationCommandOption :=
  match data with
  | None => raise TypeError  (* cls() misses its required arguments *)
  | Some kw => ApplicationCommandOption_init kw
  end.

(** [ApplicationCommandOption.__repr__], lines 133-162. *)
Fixpoint ApplicationCommandOption_repr (self : ApplicationCommandOption)
  : result OptionKwargs :=
  options <-?
    match opt_options self with
    | None => Ok None
    | Some l =>
        ds <-? rmap (fun o => d <-? ApplicationCommandOption_repr o ;;
                              Ok (Raw d)) l ;;
        Ok (Some ds)
    end ;;
  channel_types <-?
    match opt_channel_types self with
    | None => Ok None
    | Some l =>
        vs <-? rmap (fun c => v <-? channel_item_value c ;; Ok (ChannelInt v)) l ;;
        Ok (Some vs)
    end ;;
  Ok {| kw_type := Some (TypeInt (OptionType_value (opt_type self)));
        kw_name := Some (opt_name self);
        kw_description := Some (opt_description self);
        kw_required := Some (opt_required self);
        kw_choices :=
          option_map (List.map (fun c => Raw (ApplicationCommandOptionChoice_repr c)))
                     (opt_choices self);
        kw_options := options;
        kw_channel_types := channel_types;
        kw_min_value := opt_min_value self;
        kw_max_value := opt_max_value self;
        kw_autocomplete := Some (opt_autocomplete self) |}.

(** ** Callbacks and their annotations *)

(** The classes an annotation can name: the builtins and [discord] classes
    that [slash_command] tests against, and classes defined with a list of
    bases.  The [discord] classes are declared outside the modelled file;
    they are taken to exist and to derive from [object] alone. *)
Inductive pyclass : Type :=
| Class_object
| Class_str
| Class_int
| Class_bool
| Class_float
| Class_User
| Class_GuildChannel
| Class_Role
| Class_Mentionable
| Class_def (name : string) (bases : list pyclass).

(** [c is d]; classes defined under one name are one class. *)
Definition class_is (c d : pyclass) : bool :=
  match c, d with
  | Class_object, Class_object
  | Class_str, Class_str
  | Class_int, Class_int
  | Class_bool, Class_bool
  | Class_float, Class_float
  | Class_User, Class_User
  | Class_GuildChannel, Class_GuildChannel
  | Class_Role, Class_Role
  | Class_Mentionable, Class_Mentionable => true
  | Class_def n _, Class_def m _ => String.eqb n m
  | _, _ => false
  end.

(** [issubclass(c, d)]: [d] is [c], or [object], or an ancestor of [c];
    [bool] derives from [int], the other named classes from [object]. *)
Fixpoint issubclass (c d : pyclass) {struct c} : bool :=
  class_is c d
  || class_is d Class_object
  || match c with
     | Class_bool => class_is d Class_int
     | Class_def _ bases => existsb (fun b => issubclass b d) bases
     | _ => false
     end.

(** An annotation is a class or some other object, on which [issubclass]
    raises [TypeError]. *)
Inductive annotation : Type :=
| AnnClass (c : pyclass)
| AnnOther.

Record Callback : Type := mkCallback {
  callback_name : string;                         (* callback.__name__ *)
  callback_doc : option string;                   (* inspect.getdoc(callback) *)
  callback_annotations : list (string * annotation)
    (* inspect.getfullargspec(callback).annotations.items() *)
}.

(** An opaque reference to a cog. *)
Definition Cog : Type := nat.

(** ** ApplicationCommand *)

Record ApplicationCommand : Type := mkCommand {
  cmd_callback : option Callback;
  cmd_id : option Z;
  cmd_type : ApplicationCommandType;
  cmd_application_id : option Z;
  cmd_guild_id : option Z;
  cmd_name : string;
  cmd_description : string;
  cmd_options : option (list ApplicationCommandOption);
  cmd_default_permission : bool;
  cmd_default_member_permissions : option bool;
  cmd_dm_permission : option bool;
  cmd_version : option Z;
  cmd_cog : option Cog
}.

(** The keyword arguments of [ApplicationCommand.__init__].  The [options]
    list is a list of instances or a list of raw mappings; a list mixing
    the two is stored untouched by line 217 and lies outside the model. *)
Record CommandKwargs : Type := mkCommandKwargs {
  ck_name : option string;
  ck_description : option string;
  ck_callback : option Callback;
  ck_id : option Z;
  ck_application_id : option Z;
  ck_version : option Z;
  ck_type : option (type_arg ApplicationCommandType);
  ck_guild_id : option Z;
  ck_options : option (list ApplicationCommandOption + list OptionKwargs);
  ck_default_permission : option bool;
  ck_default_member_permissions : option bool;
  ck_dm_permission : option bool;
  ck_cog : option Cog
}.

Fixpoint pmap {A B} (f : A -> Py B) (l : list A) : Py (list B) :=
  match l with
  | [] => ret []
  | x :: l' => y <-- f x ;; ys <-- pmap f l' ;; ret (y :: ys)
  end.

(** Lines 216-221: a list holding an instance is kept as it is; any other
    list (the empty one too) is rebuilt through
    [ApplicationCommandOption.from_payload]. *)
Definition init_options
  (options : option (list ApplicationCommandOption + list OptionKwargs))
  : Py (option (list ApplicationCommandOption)) :=
  match options with
  | None => ret None
  | Some (inl []) => ret (Some [])
  | Some (inl (o :: l)) => ret (Some (o :: l))
  | Some (inr l) =>
      os <-- pmap (fun kw => ApplicationCommandOption_from_payload (Some kw)) l ;;
      ret (Some os)
  end.

(** [ApplicationCommand( **kw)], lines 192-226. *)
Definition ApplicationCommand_init (kw : CommandKwargs) : Py ApplicationCommand :=
  match ck_name kw, ck_description kw with
  | Some name, Some description =>
      type <-- lift (coerce_type CommandType_call
                       (default (TypeMember CHAT_INPUT) (ck_type kw))) ;;
      options <-- init_options (ck_options kw) ;;
      ret {| cmd_callback := ck_callback kw;
             cmd_id := ck_id kw;
             cmd_type := type;
             cmd_application_id := ck_application_id kw;
             cmd_guild_id := ck_guild_id kw;
             cmd_name := name;
             cmd_description := description;
             cmd_options := options;
             cmd_default_permission := default true (ck_default_permission kw);
             cmd_default_member_permissions := ck_default_member_permissions kw;
             cmd_dm_permission := ck_dm_permission kw;
             cmd_version := ck_version kw;
             cmd_cog := ck_cog kw |}
  | _, _ => raise TypeError
  end.

(** [ApplicationCommand.from_payload], lines 228-232. *)
Definition ApplicationCommand_from_payload (data : option CommandKwargs)
  : Py ApplicationCommand :=
  match data with
  | None => raise TypeError  (* cls() misses name and description *)
  | Some kw => ApplicationCommand_init kw
  end.

(** [ApplicationCommand.__copy__], lines 234-239. *)
Definition ApplicationCommand_copy (self : ApplicationCommand)
  : Py ApplicationCommand :=
  ApplicationCommand_init
    {| ck_type := Some (TypeMember (cmd_type self));
       ck_name := Some (cmd_name self);
       ck_description := Some (cmd_description self);
       ck_callback := cmd_callback self;
       ck_options := option_map inl (cmd_options self);
       ck_id := None; ck_application_id := None; ck_version := None;
       ck_guild_id := None; ck_default_permission := None;
       ck_default_member_permissions := None; ck_dm_permission := None;
       ck_cog := None |}.

(** [ApplicationCommand.__repr__], lines 241-260. *)
Definition ApplicationCommand_repr (self : ApplicationCommand)
  : result CommandKwargs :=
  options <-?
    match cmd_options self with
    | None => Ok None
    | Some l => ds <-? rmap ApplicationCommandOption_repr l ;; Ok (Some (inr ds))
    end ;;
  Ok {| ck_name := Some (cmd_name self);
        ck_description := Some (cmd_description self);
        ck_type := Some (TypeInt (CommandType_value (cmd_type self)));
        ck_default_permission := Some (cmd_default_permission self);
        ck_id := cmd_id self;
        ck_application_id := cmd_application_id self;
        ck_version := cmd_version self;
        ck_guild_id := cmd_guild_id self;
        ck_options := options;
        ck_callback := None; ck_default_member_permissions := None;
        ck_dm_permission := None; ck_cog := None |}.

(** [ApplicationCommand.__eq__], lines 262-274. *)
Definition ApplicationCommand_eq (self other : ApplicationCommand) : bool :=
  if py_ne (CommandType_value (cmd_type self)) (CommandType_value (cmd_type other))
     || py_ne (cmd_name self) (cmd_name other)
     || py_ne (cmd_description self) (cmd_description other)
     || py_ne (cmd_guild_id self) (cmd_guild_id other)
     || py_ne (cmd_default_permission self) (cmd_default_permission other)
     || py_ne (cmd_default_member_permissions self)
              (cmd_default_member_permissions other)
     || py_ne (cmd_dm_permission self) (cmd_dm_permission other)
     || optlist_ne option_is ApplicationCommandOption_eq
          (cmd_options self) (cmd_options other)
  then false else true.

(** [ApplicationCommand.__ne__], lines 276-277. *)
Definition ApplicationCommand_ne (self other : ApplicationCommand) : bool :=
  negb (ApplicationCommand_eq self other).

(** ** The staging dictionary and [slash_command] *)

(** [_pre_registration_commands]: guild id, or [None] for the global scope,
    to the list of commands declared under it. *)
Abbreviation registry := (gmap (option Z) (list ApplicationCommand)).

(** Lines 375-377. *)
Definition stage (guild_id : option Z) (command : ApplicationCommand)
  (_pre_registration_commands : registry) : registry :=
  let created :=
    match _pre_registration_commands !! guild_id with
    | None => <[guild_id := []]> _pre_registration_commands
    | Some _ => _pre_registration_commands
    end in
  alter (fun l => l ++ [command]) guild_id created.

(** [not s] on a string or [None]. *)
Definition falsy (s : option string) : bool :=
  match s with
  | None => true
  | Some EmptyString => true
  | Some _ => false
  end.

(** The chain of [issubclass] tests, lines 348-367.  Line 359 reads
    [ApplicationCommandType.ROLE], an attribute that enumeration does not
    have.  The names [discord.User], [discord.abc.GuildChannel],
    [discord.Role] and [discord.Mentionable] are bound outside the modelled
    file and taken to be bound; in a package without [discord.Mentionable]
    line 360 raises [AttributeError] and the branches after it are not
    reached, so what is proved of an annotation that gets to line 360 holds
    under that assumption only. *)
Definition current_type_of (arg_type : annotation)
  : result ApplicationCommandOptionType :=
  match arg_type with
  | AnnOther => Raise TypeError
  | AnnClass c =>
      if issubclass c Class_str then Ok STRING
      else if issubclass c Class_int then Ok INTEGER
      else if issubclass c Class_bool then Ok BOOLEAN
      else if issubclass c Class_User then Ok USER
      else if issubclass c Class_GuildChannel then Ok CHANNEL
      else if issubclass c Class_Role then Raise AttributeError
      else if issubclass c Class_Mentionable then Ok MENTIONABLE
      else if issubclass c Class_float then Ok NUMBER
      else Raise NameError
  end.

(** The keyword arguments of line 368. *)
Definition inferred_option_kwargs (current_type : ApplicationCommandOptionType)
  (arg_name : string) : OptionKwargs :=
  {| kw_type := Some (TypeMember current_type);
     kw_name := Some arg_name;
     kw_description := Some "temporary description";
     kw_required := None; kw_choices := None; kw_options := None;
     kw_channel_types := None; kw_min_value := None; kw_max_value := None;
     kw_autocomplete := None |}.

(** The body of the loop of lines 347-370. *)
Definition infer_option (arg : string * annotation) : Py ApplicationCommandOption :=
  current_type <-- lift (current_type_of (snd arg)) ;;
  ApplicationCommandOption_init (inferred_option_kwargs current_type (fst arg)).

(** [slash_command], lines 336-378, on the staging dictionary it updates. *)
Definition slash_command (callback : Callback) (name description : option string)
  (guild_id : option Z) (_pre_registration_commands : registry)
  : Py (ApplicationCommand * registry) :=
  let description :=
    if falsy description then callback_doc callback else description in
  let description :=
    if falsy description then Some "No description yet" else description in
  let name := if falsy name then Some (callback_name callback) else name in
  options <--
    match callback_annotations callback with
    | [] => ret None
    | annotations => os <-- pmap infer_option annotations ;; ret (Some os)
    end ;;
  command <--
    ApplicationCommand_init
      {| ck_type := Some (TypeMember CHAT_INPUT);
         ck_name := name;
         ck_description := description;
         ck_callback := Some callback;
         ck_guild_id := guild_id;
         ck_options := option_map inl options;
         ck_id := None; ck_application_id := None; ck_version := None;
         ck_default_permission := None; ck_default_member_permissions := None;
         ck_dm_permission := None; ck_cog := None |} ;;
  ret (command, stage guild_id command _pre_registration_commands).

(** ** [register_commands] *)

Record Route : Type := mkRoute {
  route_method : string;
  route_path : string;
  route_application_id : Z;
  route_guild_id : option Z
}.

(** One call of [bot._connection.http.request]. *)
Record Request : Type := mkRequest {
  req_route : Route;
  req_json : list ApplicationCommand
}.

(** What the function reads from the bot: the outcome of
    [bot.application_info()] (the application id), the ids of [bot.guilds]
    and the transport, which answers a request with a list of command
    mappings or raises. *)
Record Bot : Type := mkBot {
  bot_application_info : result Z;
  bot_guilds : list Z;
  bot_http_request : Request -> result (list CommandKwargs)
}.

(** The loop of lines 300-306: the requests sent so far, then the outcome.
    The answer of the transport is bound to [result] and not used. *)
Fixpoint guild_loop (bot : Bot) (application_id : Z)
  (pre_registration_guild_commands : list ApplicationCommand)
  (guilds : list Z) : list Request * result unit :=
  match guilds with
  | [] => ([], Ok tt)
  | guild :: rest =>
      let pre_registration_guild_commands_data :=
        List.map (fun command => command) pre_registration_guild_commands in
      let request :=
        {| req_route :=
             mkRoute "PUT"
               "/applications/{application_id}/guilds/{guild_id}/commands"
               application_id (Some guild);
           req_json := pre_registration_guild_commands_data |} in
      match bot_http_request bot request with
      | Raise e => ([request], Raise e)
      | Ok result =>
          let '(sent, outcome) :=
            guild_loop bot application_id pre_registration_guild_commands rest in
          (request :: sent, outcome)
      end
  end.

(** [register_commands], lines 280-317: the requests sent, the staging
    dictionary after the pass and the outcome. *)
Definition register_commands (bot : Bot) (_pre_registration_commands : registry)
  : list Request * registry * result unit :=
  match bot_application_info bot with
  | Raise e => ([], _pre_registration_commands, Raise e)
  | Ok application_id =>
      let pre_registration_guild_commands := [] in
      let '(sent, outcome) :=
        guild_loop bot application_id pre_registration_guild_commands
                   (bot_guilds bot) in
      (sent, _pre_registration_commands, outcome)
  end.

(** The requests of a trace that address the scope [scope]. *)
Definition submissions_for (scope : option Z) (sent : list Request) : list Request :=
  List.filter (fun r => bool_decide (route_guild_id (req_route r) = scope)) sent.

(** ** Predicates and inputs used in the statements *)

Definition choice_a : ApplicationCommandOptionChoice :=
  mkChoice "a" (ChoiceInt 1).

(** [ApplicationCommandOption(type=STRING, name="x", description="d",
    choices=choices)], held at address [id]. *)
Definition string_option (id : nat)
  (choices : option (list ApplicationCommandOptionChoice))
  : ApplicationCommandOption :=
  {| opt_id := id; opt_type := STRING; opt_name := "x"; opt_description := "d";
     opt_required := false; opt_choices := choices; opt_options := None;
     opt_channel_types := None; opt_min_value := None; opt_max_value := None;
     opt_autocomplete := false |}.

(** The keyword arguments of an option that gives no choices and no nested
    options. *)
Definition leaf_kwargs (type : type_arg ApplicationCommandOptionType)
  (name description : string) (required : option bool)
  (channel_types : option (list channel_item)) (min_value max_value : option Z)
  (autocomplete : option bool) : OptionKwargs :=
  {| kw_type := Some type; kw_name := Some name;
     kw_description := Some description; kw_required := required;
     kw_choices := None; kw_options := None;
     kw_channel_types := channel_types; kw_min_value := min_value;
     kw_max_value := max_value; kw_autocomplete := autocomplete |}.

(** A registered command of guild 5. *)
Definition ping_of_guild_5 : ApplicationCommand :=
  {| cmd_callback := None; cmd_id := Some 42; cmd_type := CHAT_INPUT;
     cmd_application_id := Some 7; cmd_guild_id := Some 5;
     cmd_name := "ping"; cmd_description := "d"; cmd_options := None;
     cmd_default_permission := true; cmd_default_member_permissions := None;
     cmd_dm_permission := None; cmd_version := Some 1; cmd_cog := None |}.

(** An option without choices, nested options and channel types. *)
Definition leaf (o : ApplicationCommandOption) : Prop :=
  opt_choices o = None /\ opt_options o = None /\ opt_channel_types o = None.

(** A command that sets [dm_permission]. *)
Definition ping_not_in_dm : ApplicationCommand :=
  {| cmd_callback := None; cmd_id := None; cmd_type := CHAT_INPUT;
     cmd_application_id := None; cmd_guild_id := None;
     cmd_name := "ping"; cmd_description := "d"; cmd_options := None;
     cmd_default_permission := true; cmd_default_member_permissions := None;
     cmd_dm_permission := Some false; cmd_version := None; cmd_cog := None |}.

(** A sub-command holding one string option, and a channel option limited
    to the channel type of wire value 0. *)
Definition sub_command_option : ApplicationCommandOption :=
  {| opt_id := 3; opt_type := SUB_COMMAND; opt_name := "s"; opt_description := "d";
     opt_required := false; opt_choices := None;
     opt_options := Some [string_option 4 None];
     opt_channel_types := None; opt_min_value := None; opt_max_value := None;
     opt_autocomplete := false |}.

Definition channel_option : ApplicationCommandOption :=
  {| opt_id := 5; opt_type := CHANNEL; opt_name := "c"; opt_description := "d";
     opt_required := false; opt_choices := None; opt_options := None;
     opt_channel_types := Some [ChannelMember 0];
     opt_min_value := None; opt_max_value := None; opt_autocomplete := false |}.

(** A registered command of guild 5 with one integer option. *)
Definition ping_with_count : ApplicationCommand :=
  {| cmd_callback := None; cmd_id := Some 42; cmd_type := CHAT_INPUT;
     cmd_application_id := Some 7; cmd_guild_id := Some 5;
     cmd_name := "ping"; cmd_description := "d";
     cmd_options :=
       Some [{| opt_id := 1; opt_type := INTEGER; opt_name := "count";
                opt_description := "how many"; opt_required := true;
                opt_choices := None; opt_options := None;
                opt_channel_types := None; opt_min_value := Some 1;
                opt_max_value := None; opt_autocomplete := false |}];
     cmd_default_permission := false; cmd_default_member_permissions := None;
     cmd_dm_permission := None; cmd_version := Some 1; cmd_cog := None |}.

(** The option line 368 builds for one annotation. *)
Definition inferred_option (id : nat) (current_type : ApplicationCommandOptionType)
  (arg_name : string) : ApplicationCommandOption :=
  {| opt_id := id; opt_type := current_type; opt_name := arg_name;
     opt_description := "temporary description"; opt_required := false;
     opt_choices := None; opt_options := None; opt_channel_types := None;
     opt_min_value := None; opt_max_value := None; opt_autocomplete := false |}.

(** The annotation [arg] yields the option [o]. *)
Definition infers (arg : string * annotation) (o : ApplicationCommandOption) : Prop :=
  exists id, current_type_of (snd arg) = Ok (opt_type o)
             /\ o = inferred_option id (opt_type o) (fst arg).

(** An annotation the chain of tests gives a type to. *)
Definition supported (arg : string * annotation) : Prop :=
  exists t, current_type_of (snd arg) = Ok t.

(** [def ping(flag: bool)], declared globally. *)
Definition ping_with_flag : Callback :=
  {| callback_name := "ping"; callback_doc := None;
     callback_annotations := [("flag", AnnClass Class_bool)] |}.

(** One decorated function: the arguments of a call of [slash_command]. *)
Record Declaration : Type := mkDeclaration {
  decl_callback : Callback;
  decl_name : option string;
  decl_description : option string;
  decl_guild_id : option Z
}.

(** The calls of [slash_command] for a list of declarations, in order, on
    the same staging dictionary. *)
Fixpoint declare_all (decls : list Declaration) (reg : registry)
  : Py (list ApplicationCommand * registry) :=
  match decls with
  | [] => ret ([], reg)
  | d :: rest =>
      staged <-- slash_command (decl_callback d) (decl_name d)
                   (decl_description d) (decl_guild_id d) reg ;;
      others <-- declare_all rest (snd staged) ;;
      ret (fst staged :: fst others, snd others)
  end.

(** The list held under a scope, none being the empty one. *)
Definition staged_under (reg : registry) (scope : option Z)
  : list ApplicationCommand :=
  default [] (reg !! scope).

(** Lines 375-377 run for each command of a list in turn, each under its own
    [guild_id]. *)
Definition stage_all (commands : list ApplicationCommand) (reg : registry)
  : registry :=
  foldl (fun reg command => stage (cmd_guild_id command) command reg) reg commands.

(** [def pong()], without annotations. *)
Definition pong : Callback :=
  {| callback_name := "pong"; callback_doc := None; callback_annotations := [] |}.

(** The same function declared twice for guild 7, then once globally. *)
Definition three_declarations : list Declaration :=
  [mkDeclaration pong None None (Some 7);
   mkDeclaration pong None None (Some 7);
   mkDeclaration pong None None None].

(** The request line 303 sends for a guild. *)
Definition guild_request (application_id guild : Z)
  (json : list ApplicationCommand) : Request :=
  {| req_route :=
       mkRoute "PUT" "/applications/{application_id}/guilds/{guild_id}/commands"
               application_id (Some guild);
     req_json := json |}.

(** The command [ping], declared for guild 7 and not registered yet. *)
Definition ping_of_guild_7 : ApplicationCommand :=
  {| cmd_callback := None; cmd_id := None; cmd_type := CHAT_INPUT;
     cmd_application_id := None; cmd_guild_id := Some 7;
     cmd_name := "ping"; cmd_description := "d"; cmd_options := None;
     cmd_default_permission := true; cmd_default_member_permissions := None;
     cmd_dm_permission := None; cmd_version := None; cmd_cog := None |}.

(** The mapping a transport stub answers with: the identity 42, 7, 1. *)
Definition ping_registered : CommandKwargs :=
  {| ck_name := Some "ping"; ck_description := Some "d"; ck_callback := None;
     ck_id := Some 42; ck_application_id := Some 7; ck_version := Some 1;
     ck_type := Some (TypeInt 1); ck_guild_id := Some 7; ck_options := None;
     ck_default_permission := Some true; ck_default_member_permissions := None;
     ck_dm_permission := None; ck_cog := None |}.

(** A bot of application 7, member of guild 7, whose transport answers every
    request with [ping_registered]. *)
Definition echo_bot : Bot :=
  {| bot_application_info := Ok 7;
     bot_guilds := [7];
     bot_http_request := fun _ => Ok [ping_registered] |}.

(** ** ApplicationCommandInteractionDataOption *)

Section ListCompareRaising.

Context {A : Type}.

(** [same x y]: [x is y]; [eq x y]: [x == y], which may raise. *)
Variable same : A -> A -> bool.
Variable eq : A -> A -> result bool.

(** The loop of a list comparison over two lists of one length: it skips
    the positions that hold one object, stops at the first pair that is
    unequal and lets an exception of [==] through. *)
Fixpoint items_eq (l1 l2 : list A) : result bool :=
  match l1, l2 with
  | x :: l1', y :: l2' =>
      if same x y then items_eq l1' l2'
      else b <-? eq x y ;; if b then items_eq l1' l2' else Ok false
  | _, _ => Ok true
  end.

(** [list == list]: lists of different lengths are unequal without any
    element being compared. *)
Definition raising_list_eq (l1 l2 : list A) : result bool :=
  if Nat.eqb (length l1) (length l2) then items_eq l1 l2 else Ok false.

(** [x != y] where each side is [None] or a list. *)
Definition raising_optlist_ne (x y : option (list A)) : result bool :=
  match x, y with
  | None, None => Ok false
  | Some l1, Some l2 => b <-? raising_list_eq l1 l2 ;; Ok (negb b)
  | _, _ => Ok true
  end.

End ListCompareRaising.

(** The dataclass of lines 48-54; it has no [__post_init__]. *)
Inductive ApplicationCommandInteractionDataOption : Type := mkDataOption {
  ido_id : nat;  (* id(self) *)
  ido_name : string;
  ido_type : Z;
  ido_value : option ApplicationCommandOptionType;
  ido_options : option (list ApplicationCommandInteractionDataOption);
  ido_focused : bool
}.

Definition data_option_is (x y : ApplicationCommandInteractionDataOption) : bool :=
  Nat.eqb (ido_id x) (ido_id y).

(** [ApplicationCommandInteractionDataOption.__eq__], lines 71-80: the
    disjuncts are evaluated from the left, and [self.value.value] then
    [other.value.value] raise [AttributeError] on [None]. *)
Fixpoint ApplicationCommandInteractionDataOption_eq
  (self other : ApplicationCommandInteractionDataOption) {struct self}
  : result bool :=
  if py_ne (ido_name self) (ido_name other) then Ok false
  else if py_ne (ido_type self) (ido_type other) then Ok false
  else
    match ido_value self, ido_value other with
    | Some v, Some w =>
        if py_ne (OptionType_value v) (OptionType_value w) then Ok false
        else
          differ <-? raising_optlist_ne data_option_is
                       ApplicationCommandInteractionDataOption_eq
                       (ido_options self) (ido_options other) ;;
          if differ then Ok false
          else if py_ne (ido_focused self) (ido_focused other) then Ok false
          else Ok true
    | _, _ => Raise AttributeError
    end.

(** ** Further predicates and inputs *)

(** The command [c] with other identity fields, callback and cog. *)
Definition with_registration (c : ApplicationCommand) (id application_id
  version : option Z) (callback : option Callback) (cog : option Cog)
  : ApplicationCommand :=
  {| cmd_callback := callback; cmd_id := id; cmd_type := cmd_type c;
     cmd_application_id := application_id; cmd_guild_id := cmd_guild_id c;
     cmd_name := cmd_name c; cmd_description := cmd_description c;
     cmd_options := cmd_options c;
     cmd_default_permission := cmd_default_permission c;
     cmd_default_member_permissions := cmd_default_member_permissions c;
     cmd_dm_permission := cmd_dm_permission c;
     cmd_version := version; cmd_cog := cog |}.

(** The option [o] with other choices. *)
Definition with_choices (o : ApplicationCommandOption)
  (choices : option (list ApplicationCommandOptionChoice))
  : ApplicationCommandOption :=
  {| opt_id := opt_id o; opt_type := opt_type o; opt_name := opt_name o;
     opt_description := opt_description o; opt_required := opt_required o;
     opt_choices := choices; opt_options := opt_options o;
     opt_channel_types := opt_channel_types o;
     opt_min_value := opt_min_value o; opt_max_value := opt_max_value o;
     opt_autocomplete := opt_autocomplete o |}.

(** No option of the tree carries channel types ([None] or an empty list at
    every level). *)
Fixpoint channel_free (o : ApplicationCommandOption) : bool :=
  match opt_channel_types o with
  | None | Some [] =>
      match opt_options o with
      | None => true
      | Some l => forallb channel_free l
      end
  | Some (_ :: _) => false
  end.

(** The body of the loop of lines 130-131 on one element of the list. *)
Definition build_option (x : item ApplicationCommandOption OptionKwargs)
  : Py ApplicationCommandOption :=
  match x with
  | Raw kw => ApplicationCommandOption_init kw
  | Inst _ => raise TypeError
  end.

(** The description and the name lines 337-342 settle on. *)
Definition chosen_description (callback : Callback) (description : option string)
  : string :=
  let description :=
    if falsy description then callback_doc callback else description in
  let description :=
    if falsy description then Some "No description yet" else description in
  default "" description.

Definition chosen_name (callback : Callback) (name : option string) : string :=
  default "" (if falsy name then Some (callback_name callback) else name).

(** An annotation that one of the tests of lines 348, 350, 354 and 356
    gives a type to: a class deriving from [str], [int], [discord.User] or
    [discord.abc.GuildChannel]. *)
Definition typed_before_line_358 (a : annotation) : bool :=
  match a with
  | AnnClass c =>
      issubclass c Class_str || issubclass c Class_int
      || issubclass c Class_User || issubclass c Class_GuildChannel
  | AnnOther => false
  end.

(** What the chain raises on an annotation before it gets to line 360:
    [TypeError] at line 348 on what is not a class, [AttributeError] at
    line 359 on a class that passes the test of line 358 and none before. *)
Definition raised_before_line_360 (a : annotation) : option exn :=
  match a with
  | AnnOther => Some TypeError
  | AnnClass c =>
      if issubclass c Class_str || issubclass c Class_int
         || issubclass c Class_bool || issubclass c Class_User
         || issubclass c Class_GuildChannel
      then None
      else if issubclass c Class_Role then Some AttributeError else None
  end.

(** [def grant(n: int, role: discord.Role, why: str)]. *)
Definition grant : Callback :=
  {| callback_name := "grant"; callback_doc := None;
     callback_annotations :=
       [("n", AnnClass Class_int); ("role", AnnClass Class_Role);
        ("why", AnnClass Class_str)] |}.

(** [def kick(who: discord.User, why: str, days: bool)]. *)
Definition kick : Callback :=
  {| callback_name := "kick"; callback_doc := None;
     callback_annotations :=
       [("who", AnnClass Class_User); ("why", AnnClass Class_str);
        ("days", AnnClass Class_bool)] |}.

(** A bot of application 7 in guilds 1, 2 and 3 whose transport refuses the
    requests for guild 2. *)
Definition bot_refused_in_guild_2 : Bot :=
  {| bot_application_info := Ok 7;
     bot_guilds := [1; 2; 3];
     bot_http_request := fun r =>
       if bool_decide (route_guild_id (req_route r) = Some 2)
       then Raise HTTPException else Ok [] |}.

(** * Properties *)

(** ** Comparisons *)

Lemma py_ne_refl {A} `{EqDecision A} (x : A) : py_ne x x = false.
Proof. unfold py_ne. by rewrite bool_decide_eq_true_2. Qed.

Lemma py_ne_false {A} `{EqDecision A} (x y : A) : py_ne x y = false <-> x = y.
Proof.
  unfold py_ne. rewrite negb_false_iff. apply bool_decide_eq_true.
Qed.

Lemma option_is_refl (o : ApplicationCommandOption) : option_is o o = true.
Proof. apply Nat.eqb_refl. Qed.

(** A list compared with itself: every position holds the same object. *)
Lemma list_eq_same {A} (same eq : A -> A -> bool) (l : list A) :
  (forall x, same x x = true) -> list_eq same eq l l = true.
Proof.
  intros Hsame. induction l as [|x l IH]; simpl; [done|].
  by rewrite Hsame, IH.
Qed.

Lemma optlist_ne_same {A} (same eq : A -> A -> bool) (x : option (list A)) :
  (forall a, same a a = true) -> optlist_ne same eq x x = false.
Proof.
  intros Hsame. destruct x as [l|]; simpl; [|done].
  by rewrite list_eq_same.
Qed.

(** A list of choices equals a list of options only when both are empty. *)
Lemma choices_ne_options (cs : option (list ApplicationCommandOptionChoice))
  (os : option (list ApplicationCommandOption)) :
  optlist_ne choice_is_option choice_eq_option cs os = false <->
  (cs = None /\ os = None) \/ (cs = Some [] /\ os = Some []).
Proof.
  destruct cs as [[|c cs]|], os as [[|o os]|]; simpl; split;
    try discriminate; try tauto; intros [[? ?]|[? ?]]; discriminate.
Qed.

(** What [ApplicationCommandOption_eq] answering [True] says about the
    choices of its left operand. *)
Lemma ApplicationCommandOption_eq_choices (a b : ApplicationCommandOption) :
  ApplicationCommandOption_eq a b = true ->
  (opt_choices a = None /\ opt_options b = None)
  \/ (opt_choices a = Some [] /\ opt_options b = Some []).
Proof.
  intros Heq. apply choices_ne_options.
  destruct a, b; simpl in *.
  destruct (optlist_ne choice_is_option choice_eq_option _ _); [|done].
  by rewrite !orb_true_r in Heq.
Qed.

(** ** The enumerations *)

Lemma enum_call_unknown {E} (names : list E) (value : E -> Z) (v : Z) :
  (forall t, value t <> v) -> enum_call names value v = Raise InvalidSchema.
Proof.
  intros Hv. unfold enum_call.
  replace (List.find (fun t => value t =? v) names) with (@None E); [done|].
  induction names as [|t names IH]; simpl; [done|].
  destruct (Z.eqb_spec (value t) v) as [Heq|_]; [by apply Hv in Heq|done].
Qed.

Lemma OptionType_call_value (t : ApplicationCommandOptionType) :
  exists t', OptionType_call (OptionType_value t) = Ok t'
             /\ OptionType_value t' = OptionType_value t.
Proof. destruct t; eexists; split; reflexivity. Qed.

Lemma CommandType_call_value (t : ApplicationCommandType) :
  CommandType_call (CommandType_value t) = Ok t.
Proof. by destruct t. Qed.

(** C7 (the declaration contradicts it): [ROLE] and [MENTIONABLE] are both
    declared with the wire integer 8, so the ten names carry only nine
    distinct values, and the integer 9 is the value of none of them. *)
Theorem OptionType_ROLE_MENTIONABLE_share_8 :
  OptionType_value ROLE = 8
  /\ OptionType_value MENTIONABLE = 8
  /\ length OptionType_names = 10%nat
  /\ length (remove_dups (OptionType_value <$> OptionType_names)) = 9%nat
  /\ (forall t, OptionType_value t <> 9).
Proof.
  repeat split; try reflexivity. intros t. by destruct t.
Qed.

(** ** Equality of options *)

(** C1 (the code departs from it): two options that agree on every field,
    with one choice each, compare unequal, an option with a choice list
    compares unequal to itself, and an option without choices compares
    equal to one with a choice; [__eq__] reads [other.options] where the
    choices of [other] are meant. *)
Theorem ApplicationCommandOption_eq_reads_other_options :
  ApplicationCommandOption_eq (string_option 1 (Some [choice_a]))
                              (string_option 2 (Some [choice_a])) = false
  /\ ApplicationCommandOption_eq (string_option 1 (Some [choice_a]))
                                 (string_option 1 (Some [choice_a])) = false
  /\ ApplicationCommandOption_eq (string_option 1 None)
                                 (string_option 2 (Some [choice_a])) = true.
Proof. repeat split; reflexivity. Qed.

(** ** Construction of options *)

(** C9: an option built with the raw integer 4 and one built with the member
    [INTEGER], the other fields alike, both hold the member and compare
    equal in both directions; a member given as [type] is kept as it is. *)
Theorem raw_type_4_equals_INTEGER :
  (forall name description required channel_types min_value max_value
          autocomplete h1 h2,
     exists a b,
       ApplicationCommandOption_init
         (leaf_kwargs (TypeInt 4) name description required channel_types
                      min_value max_value autocomplete) h1 = Ok (a, S h1)
       /\ ApplicationCommandOption_init
            (leaf_kwargs (TypeMember INTEGER) name description required
                         channel_types min_value max_value autocomplete) h2
          = Ok (b, S h2)
       /\ opt_type a = INTEGER /\ opt_type b = INTEGER
       /\ ApplicationCommandOption_eq a b = true
       /\ ApplicationCommandOption_eq b a = true)
  /\ (forall t, coerce_type OptionType_call (TypeMember t) = Ok t).
Proof.
  split; [|done]. intros.
  eexists _, _. repeat split; simpl; by rewrite !py_ne_refl.
Qed.

(** C6: whatever the other keyword arguments are, an integer [type] that is
    the value of no member makes the construction raise [InvalidSchema]:
    the coercion of line 121 comes first and nothing is stored. *)
Theorem unrecognized_type_tag_raises_InvalidSchema :
  forall v name description required choices options channel_types
         min_value max_value autocomplete h,
    (forall t, OptionType_value t <> v) ->
    let payload :=
      {| kw_type := Some (TypeInt v); kw_name := Some name;
         kw_description := Some description; kw_required := required;
         kw_choices := choices; kw_options := options;
         kw_channel_types := channel_types; kw_min_value := min_value;
         kw_max_value := max_value; kw_autocomplete := autocomplete |} in
    ApplicationCommandOption_init payload h = Raise InvalidSchema
    /\ ApplicationCommandOption_from_payload (Some payload) h
       = Raise InvalidSchema.
Proof.
  intros * Hv. simpl. unfold bind, new_object, lift, OptionType_call.
  by rewrite (enum_call_unknown _ _ _ Hv).
Qed.

Lemma unrecognized_type_tag_99 :
  ApplicationCommandOption_init
    (leaf_kwargs (TypeInt 99) "x" "d" None None None None None) 0%nat
  = Raise InvalidSchema
  /\ ApplicationCommandOption_from_payload
       (Some (leaf_kwargs (TypeInt 99) "x" "d" None None None None None)) 0%nat
     = Raise InvalidSchema.
Proof.
  apply (unrecognized_type_tag_raises_InvalidSchema
           99 "x" "d" None None None None None None None 0%nat).
  intros t. by destruct t.
Defined.

(** ** Equality of commands *)

Lemma if_negb (b : bool) : (if b then false else true) = negb b.
Proof. by destruct b. Qed.

(** [ApplicationCommand_eq] field by field. *)
Lemma ApplicationCommand_eq_spec (a b : ApplicationCommand) :
  ApplicationCommand_eq a b = true <->
  CommandType_value (cmd_type a) = CommandType_value (cmd_type b)
  /\ cmd_name a = cmd_name b
  /\ cmd_description a = cmd_description b
  /\ cmd_guild_id a = cmd_guild_id b
  /\ cmd_default_permission a = cmd_default_permission b
  /\ cmd_default_member_permissions a = cmd_default_member_permissions b
  /\ cmd_dm_permission a = cmd_dm_permission b
  /\ optlist_ne option_is ApplicationCommandOption_eq
       (cmd_options a) (cmd_options b) = false.
Proof.
  unfold ApplicationCommand_eq.
  rewrite if_negb, negb_true_iff, !orb_false_iff, !py_ne_false. tauto.
Qed.

(** ** Copies of commands *)

Lemma ApplicationCommand_copy_fields (d : ApplicationCommand) (h : nat) :
  ApplicationCommand_copy d h
  = Ok ({| cmd_callback := cmd_callback d; cmd_id := None;
           cmd_type := cmd_type d; cmd_application_id := None;
           cmd_guild_id := None; cmd_name := cmd_name d;
           cmd_description := cmd_description d;
           cmd_options := cmd_options d; cmd_default_permission := true;
           cmd_default_member_permissions := None;
           cmd_dm_permission := None; cmd_version := None;
           cmd_cog := None |}, h).
Proof.
  unfold ApplicationCommand_copy, ApplicationCommand_init; simpl.
  by destruct (cmd_options d) as [[|o l]|].
Qed.

(** C4 as stated fails: the copy of a command of guild 5 has no guild and
    compares unequal to the command, in both directions. *)
Lemma copy_of_guild_command_differs :
  exists c,
    ApplicationCommand_copy ping_of_guild_5 0%nat = Ok (c, 0%nat)
    /\ cmd_guild_id c = None
    /\ ApplicationCommand_eq c ping_of_guild_5 = false
    /\ ApplicationCommand_eq ping_of_guild_5 c = false.
Proof. eexists. repeat split; reflexivity. Qed.

(** C4, amended: the copy never raises, allocates nothing, carries no
    identity field, and compares equal to the command exactly when the
    command has no guild, no [default_member_permissions], no
    [dm_permission] and [default_permission] set: the identity fields, the
    callback and the cog play no part, and the options are the same
    objects. *)
Theorem copy_eq_iff_unscoped_defaults :
  forall d h,
    exists c,
      ApplicationCommand_copy d h = Ok (c, h)
      /\ cmd_id c = None /\ cmd_application_id c = None /\ cmd_version c = None
      /\ (ApplicationCommand_eq c d = true <->
          cmd_guild_id d = None
          /\ cmd_default_permission d = true
          /\ cmd_default_member_permissions d = None
          /\ cmd_dm_permission d = None).
Proof.
  intros d h. eexists. split; [apply ApplicationCommand_copy_fields|].
  rewrite ApplicationCommand_eq_spec; simpl.
  rewrite (optlist_ne_same _ _ _ option_is_refl).
  do 3 (split; [done|]). split.
  - intros (_ & _ & _ & <- & <- & <- & <- & _). done.
  - intros (-> & -> & -> & ->). done.
Qed.

(** ** Serialization followed by reconstruction *)

(** [ApplicationCommandOption_eq] field by field. *)
Lemma ApplicationCommandOption_eq_spec (a b : ApplicationCommandOption) :
  ApplicationCommandOption_eq a b = true <->
  OptionType_value (opt_type a) = OptionType_value (opt_type b)
  /\ opt_name a = opt_name b
  /\ opt_description a = opt_description b
  /\ opt_autocomplete a = opt_autocomplete b
  /\ opt_max_value a = opt_max_value b
  /\ opt_min_value a = opt_min_value b
  /\ opt_channel_types a = opt_channel_types b
  /\ opt_required a = opt_required b
  /\ optlist_ne option_is ApplicationCommandOption_eq
       (opt_options a) (opt_options b) = false
  /\ optlist_ne choice_is_option choice_eq_option
       (opt_choices a) (opt_options b) = false.
Proof.
  destruct a; simpl.
  rewrite if_negb, negb_true_iff, !orb_false_iff, !py_ne_false. tauto.
Qed.

Lemma leaf_repr (o : ApplicationCommandOption) :
  leaf o ->
  ApplicationCommandOption_repr o
  = Ok (leaf_kwargs (TypeInt (OptionType_value (opt_type o))) (opt_name o)
          (opt_description o) (Some (opt_required o)) None
          (opt_min_value o) (opt_max_value o) (Some (opt_autocomplete o))).
Proof.
  destruct o; unfold leaf; simpl. by intros (-> & -> & ->).
Qed.

Lemma leaf_roundtrip (o : ApplicationCommandOption) (h : nat) :
  leaf o ->
  exists data o',
    ApplicationCommandOption_repr o = Ok data
    /\ ApplicationCommandOption_from_payload (Some data) h = Ok (o', S h)
    /\ ApplicationCommandOption_eq o' o = true
    /\ ApplicationCommandOption_eq o o' = true.
Proof.
  intros Hleaf. eexists. rewrite (leaf_repr _ Hleaf).
  destruct (OptionType_call_value (opt_type o)) as (t' & Hcall & Hvalue).
  destruct Hleaf as (Hc & Ho & Ht).
  eexists. split; [done|]. split.
  - simpl. unfold bind, new_object, lift. rewrite Hcall. simpl. reflexivity.
  - rewrite !ApplicationCommandOption_eq_spec; simpl.
    rewrite Hc, Ho, Ht, Hvalue. done.
Qed.

Lemma pmap_cons {A B} (f : A -> Py B) (x : A) (l : list A) (h : nat) :
  pmap f (x :: l) h
  = match f x h with
    | Ok (y, h1) =>
        match pmap f l h1 with
        | Ok (ys, h2) => Ok (y :: ys, h2)
        | Raise e => Raise e
        end
    | Raise e => Raise e
    end.
Proof.
  simpl. unfold bind. destruct (f x h) as [[y h1]|e]; [|done].
  by destruct (pmap f l h1) as [[ys h2]|e].
Qed.

(** A list of leaves, serialized and rebuilt by line 221. *)
Lemma leaves_roundtrip (os : list ApplicationCommandOption) (h : nat) :
  Forall leaf os ->
  exists ds os' h',
    rmap ApplicationCommandOption_repr os = Ok ds
    /\ pmap (fun kw => ApplicationCommandOption_from_payload (Some kw)) ds h
       = Ok (os', h')
    /\ list_eq option_is ApplicationCommandOption_eq os' os = true
    /\ list_eq option_is ApplicationCommandOption_eq os os' = true.
Proof.
  intros Hos. revert h.
  induction Hos as [|o os Ho _ IH]; intros h.
  - by exists [], [], h.
  - destruct (leaf_roundtrip o h Ho) as (d & o' & Hd & Ho' & Heq & Heq').
    destruct (IH (S h)) as (ds & os' & h' & Hds & Hos' & Hl & Hl').
    exists (d :: ds), (o' :: os'), h'.
    rewrite pmap_cons, Ho', Hos'. simpl.
    rewrite Hd, Hds, Heq, Heq', Hl, Hl', !orb_true_r. done.
Qed.

Lemma init_options_raw (l : list OptionKwargs) (h : nat) :
  init_options (Some (inr l)) h
  = match pmap (fun kw => ApplicationCommandOption_from_payload (Some kw)) l h with
    | Ok (os, h') => Ok (Some os, h')
    | Raise e => Raise e
    end.
Proof.
  unfold init_options, bind.
  by destruct (pmap _ l h) as [[os h']|e].
Qed.

(** [ApplicationCommand_init] once [name] and [description] are bound. *)
Lemma ApplicationCommand_init_unfold (kw : CommandKwargs) (h : nat)
  (name description : string) :
  ck_name kw = Some name ->
  ck_description kw = Some description ->
  ApplicationCommand_init kw h
  = match coerce_type CommandType_call
            (default (TypeMember CHAT_INPUT) (ck_type kw)) with
    | Raise e => Raise e
    | Ok type =>
        match init_options (ck_options kw) h with
        | Raise e => Raise e
        | Ok (options, h') =>
            Ok ({| cmd_callback := ck_callback kw;
                   cmd_id := ck_id kw;
                   cmd_type := type;
                   cmd_application_id := ck_application_id kw;
                   cmd_guild_id := ck_guild_id kw;
                   cmd_name := name;
                   cmd_description := description;
                   cmd_options := options;
                   cmd_default_permission :=
                     default true (ck_default_permission kw);
                   cmd_default_member_permissions :=
                     ck_default_member_permissions kw;
                   cmd_dm_permission := ck_dm_permission kw;
                   cmd_version := ck_version kw;
                   cmd_cog := ck_cog kw |}, h')
        end
    end.
Proof.
  intros Hname Hdescription. unfold ApplicationCommand_init.
  rewrite Hname, Hdescription. unfold bind, lift.
  destruct (coerce_type _ _) as [type|e]; [|done].
  by destruct (init_options _ h) as [[options h']|e].
Qed.

(** C5 as stated fails: [__repr__] writes no [dm_permission] key, so the
    command rebuilt from the mapping has none and compares unequal to the
    original. *)
Lemma roundtrip_drops_dm_permission :
  exists data c,
    ApplicationCommand_repr ping_not_in_dm = Ok data
    /\ ApplicationCommand_from_payload (Some data) 0%nat = Ok (c, 0%nat)
    /\ cmd_dm_permission c = None
    /\ ApplicationCommand_eq c ping_not_in_dm = false
    /\ ApplicationCommand_eq ping_not_in_dm c = false.
Proof. eexists _, _. repeat split; reflexivity. Qed.

(** The same round trip on an option with one choice: the rebuilt option
    has the same fields and compares unequal. *)
Example roundtrip_option_with_choice :
  exists data o,
    ApplicationCommandOption_repr (string_option 1 (Some [choice_a])) = Ok data
    /\ ApplicationCommandOption_from_payload (Some data) 2%nat = Ok (o, 3%nat)
    /\ o = string_option 2 (Some [choice_a])
    /\ ApplicationCommandOption_eq o (string_option 1 (Some [choice_a])) = false.
Proof. eexists _, _. repeat split; reflexivity. Qed.

(** On a sub-command with a nested option: the rebuilt option has no
    choices, the original has options, and line 176 compares the two. *)
Example roundtrip_option_with_nested_option :
  exists data o h',
    ApplicationCommandOption_repr sub_command_option = Ok data
    /\ ApplicationCommandOption_from_payload (Some data) 6%nat = Ok (o, h')
    /\ ApplicationCommandOption_eq o sub_command_option = false.
Proof. eexists _, _, _. repeat split; reflexivity. Qed.

(** On an option with channel types: the mapping carries their integers and
    the rebuilt option keeps the integers. *)
Example roundtrip_option_with_channel_types :
  exists data o h',
    ApplicationCommandOption_repr channel_option = Ok data
    /\ ApplicationCommandOption_from_payload (Some data) 6%nat = Ok (o, h')
    /\ opt_channel_types o = Some [ChannelInt 0]
    /\ ApplicationCommandOption_eq o channel_option = false.
Proof. eexists _, _, _. repeat split; reflexivity. Qed.

(** C5, amended: an option without choices, nested options and channel
    types, and a command without [default_member_permissions] and
    [dm_permission] whose options, when present, are such options,
    serialize without error to a mapping from which [from_payload] rebuilds
    a value equal to the original in both directions, whatever [min_value],
    [max_value], [guild_id], the identity fields and the presence of the
    option list are. *)
Theorem roundtrip_equal_on_plain_values :
  (forall o h,
     leaf o ->
     exists data o',
       ApplicationCommandOption_repr o = Ok data
       /\ ApplicationCommandOption_from_payload (Some data) h = Ok (o', S h)
       /\ ApplicationCommandOption_eq o' o = true
       /\ ApplicationCommandOption_eq o o' = true)
  /\ (forall c h,
        cmd_default_member_permissions c = None ->
        cmd_dm_permission c = None ->
        (forall os, cmd_options c = Some os -> Forall leaf os) ->
        exists data c' h',
          ApplicationCommand_repr c = Ok data
          /\ ApplicationCommand_from_payload (Some data) h = Ok (c', h')
          /\ ApplicationCommand_eq c' c = true
          /\ ApplicationCommand_eq c c' = true).
Proof.
  split; [apply leaf_roundtrip|].
  intros c h Hdmp Hdm Hleaves.
  unfold ApplicationCommand_repr, ApplicationCommand_from_payload.
  destruct (cmd_options c) as [os|] eqn:Hos; simpl.
  - destruct (leaves_roundtrip os h (Hleaves os eq_refl))
      as (ds & os' & h' & Hds & Hos' & Hl & Hl').
    rewrite Hds; simpl. eexists _, _, _. split; [done|].
    erewrite ApplicationCommand_init_unfold by done.
    cbn -[init_options CommandType_call].
    rewrite CommandType_call_value, init_options_raw, Hos'.
    split; [done|].
    rewrite !ApplicationCommand_eq_spec; simpl.
    rewrite Hos, Hdmp, Hdm; simpl. rewrite Hl, Hl'. done.
  - eexists _, _, _. split; [done|].
    erewrite ApplicationCommand_init_unfold by done. simpl.
    rewrite CommandType_call_value. split; [done|].
    rewrite !ApplicationCommand_eq_spec; simpl.
    rewrite Hos, Hdmp, Hdm. done.
Qed.

Lemma roundtrip_of_ping_with_count :
  exists data c' h',
    ApplicationCommand_repr ping_with_count = Ok data
    /\ ApplicationCommand_from_payload (Some data) 2%nat = Ok (c', h')
    /\ ApplicationCommand_eq c' ping_with_count = true
    /\ ApplicationCommand_eq ping_with_count c' = true.
Proof.
  apply (proj2 roundtrip_equal_on_plain_values ping_with_count 2%nat).
  - reflexivity.
  - reflexivity.
  - intros os [= <-]. repeat constructor.
Defined.

(** ** Inference of option types *)

(** Induction on classes through their lists of bases. *)
Lemma pyclass_nested_ind (P : pyclass -> Prop) :
  (forall c, (forall name bases, c <> Class_def name bases) -> P c) ->
  (forall name bases, Forall P bases -> P (Class_def name bases)) ->
  forall c, P c.
Proof.
  intros Hnamed Hdef. fix IH 1. intros c.
  destruct c as [| | | | | | | | |name bases];
    try (apply Hnamed; intros; discriminate).
  apply Hdef. revert bases. fix IHbases 1. intros [|b bases].
  - constructor.
  - constructor; [apply IH|apply IHbases].
Qed.

(** Whatever derives from [bool] derives from [int]. *)
Lemma issubclass_bool_int (c : pyclass) :
  issubclass c Class_bool = true -> issubclass c Class_int = true.
Proof.
  induction c as [c Hc|name bases IH] using pyclass_nested_ind.
  - destruct c; try discriminate; try reflexivity.
    by destruct (Hc name bases).
  - simpl. rewrite !existsb_exists. intros (b & Hin & Hb).
    exists b. split; [done|].
    rewrite Forall_forall in IH. apply IH; [|done].
    by apply list_elem_of_In.
Qed.

(** No annotation reaches the [BOOLEAN] branch of line 353. *)
Lemma current_type_never_BOOLEAN (a : annotation) :
  current_type_of a <> Ok BOOLEAN.
Proof.
  destruct a as [c|]; simpl; [|done].
  destruct (issubclass c Class_str); [done|].
  destruct (issubclass c Class_int) eqn:Hint; [done|].
  destruct (issubclass c Class_bool) eqn:Hbool.
  { apply issubclass_bool_int in Hbool. congruence. }
  repeat (match goal with |- context [if ?b then _ else _] => destruct b end;
          try done).
Qed.

(** The loop over the annotations: one option per annotation, in order, or
    the exception of the first annotation without a type. *)
Lemma pmap_infer_option (annotations : list (string * annotation)) (h : nat) :
  match pmap infer_option annotations h with
  | Ok (os, _) => Forall2 infers annotations os
  | Raise e => Exists (fun arg => current_type_of (snd arg) = Raise e) annotations
  end.
Proof.
  revert h. induction annotations as [|[arg_name arg_type] annotations IH];
    intros h; [by constructor|].
  rewrite pmap_cons. unfold infer_option at 1; simpl.
  unfold bind, lift.
  destruct (current_type_of arg_type) as [t|e] eqn:Ht; [|by left].
  simpl. specialize (IH (S h)).
  destruct (pmap infer_option annotations (S h)) as [[os h']|e]; [|by right].
  constructor; [|done]. by exists h.
Qed.

(** Line 216 on a list of instances: the list is stored. *)
Lemma init_options_instances (options : option (list ApplicationCommandOption))
  (h : nat) :
  init_options (option_map inl options) h = Ok (options, h).
Proof. by destruct options as [[|o l]|]. Qed.

Lemma falsy_false (s : option string) :
  falsy s = false -> exists s', s = Some s'.
Proof. destruct s as [s|]; [by exists s|done]. Qed.

(** What a call of [slash_command] returns and stages, or why it raises. *)
Lemma slash_command_spec (callback : Callback) (name description : option string)
  (guild_id : option Z) (reg : registry) (h : nat) :
  match slash_command callback name description guild_id reg h with
  | Ok ((command, reg'), _) =>
      reg' = stage guild_id command reg
      /\ cmd_guild_id command = guild_id
      /\ cmd_callback command = Some callback
      /\ match callback_annotations callback with
         | [] => cmd_options command = None
         | annotations =>
             exists os, cmd_options command = Some os
                        /\ Forall2 infers annotations os
         end
  | Raise e =>
      Exists (fun arg => current_type_of (snd arg) = Raise e)
             (callback_annotations callback)
  end.
Proof.
  unfold slash_command.
  set (description1 := if falsy description then _ else _).
  set (description2 := if falsy description1 then _ else _).
  set (name1 := if falsy name then _ else _).
  assert (exists n, name1 = Some n) as [n Hn].
  { subst name1. destruct (falsy name) eqn:Hf; [by eexists|].
    by apply falsy_false. }
  assert (exists d, description2 = Some d) as [d Hd].
  { subst description2. destruct (falsy description1) eqn:Hf; [by eexists|].
    by apply falsy_false. }
  rewrite Hn, Hd. clearbody name1 description2. clear description1.
  unfold bind at 1.
  destruct (callback_annotations callback) as [|arg annotations] eqn:Hann.
  - simpl. done.
  - pose proof (pmap_infer_option (arg :: annotations) h) as Hloop.
    unfold bind.
    destruct (pmap infer_option (arg :: annotations) h) as [[os h']|e];
      [|done].
    unfold ret at 1.
    erewrite ApplicationCommand_init_unfold by done.
    cbn -[init_options stage].
    rewrite (init_options_instances (Some os)).
    cbn -[stage]. repeat split; try done. by exists os.
Qed.

Lemma slash_command_returns (callback : Callback) (name description : option string)
  (guild_id : option Z) (reg : registry) (h : nat) :
  Forall supported (callback_annotations callback) ->
  exists command h',
    slash_command callback name description guild_id reg h
    = Ok ((command, stage guild_id command reg), h').
Proof.
  intros Hsup.
  pose proof (slash_command_spec callback name description guild_id reg h) as Hspec.
  destruct (slash_command _ _ _ _ _ _) as [[[command reg'] h']|e].
  - destruct Hspec as (-> & _). by exists command, h'.
  - apply Exists_exists in Hspec as (arg & Hin & Hraise).
    rewrite Forall_forall in Hsup. destruct (Hsup arg Hin) as [t Ht].
    congruence.
Qed.

(** C10: [bool] is given [INTEGER] by the test of line 350, no annotation is
    given [BOOLEAN], and so a call of [slash_command] either raises on an
    annotation without a type or returns a command whose option for each
    parameter annotated [bool] is an [INTEGER] option of that name, none of
    its options being [BOOLEAN]; it returns whenever every annotation has a
    type. *)
Theorem bool_annotation_infers_INTEGER :
  current_type_of (AnnClass Class_bool) = Ok INTEGER
  /\ (forall a, current_type_of a <> Ok BOOLEAN)
  /\ (forall callback name description guild_id reg h,
        match slash_command callback name description guild_id reg h with
        | Ok ((command, _), _) =>
            (forall i arg_name,
               callback_annotations callback !! i
               = Some (arg_name, AnnClass Class_bool) ->
               exists os id,
                 cmd_options command = Some os
                 /\ os !! i = Some (inferred_option id INTEGER arg_name))
            /\ (forall os o,
                  cmd_options command = Some os -> o ∈ os ->
                  opt_type o <> BOOLEAN)
        | Raise e =>
            Exists (fun arg => current_type_of (snd arg) = Raise e)
                   (callback_annotations callback)
        end)
  /\ (forall callback name description guild_id reg h,
        Forall supported (callback_annotations callback) ->
        exists command h',
          slash_command callback name description guild_id reg h
          = Ok ((command, stage guild_id command reg), h')).
Proof.
  split; [done|]. split; [apply current_type_never_BOOLEAN|].
  split; [|apply slash_command_returns].
  intros callback name description guild_id reg h.
  pose proof (slash_command_spec callback name description guild_id reg h) as Hspec.
  destruct (slash_command _ _ _ _ _ _) as [[[command reg'] h']|e]; [|done].
  destruct Hspec as (_ & _ & _ & Hoptions).
  destruct (callback_annotations callback) as [|arg annotations].
  { split; [done|]. intros os o Hos. congruence. }
  destruct Hoptions as (os & Hos & Hinfers). split.
  - intros i arg_name Hi.
    destruct (Forall2_lookup_l _ _ _ _ _ Hinfers Hi) as (o & Ho & id & Ht & Heq).
    exists os, id. split; [done|]. simpl in Ht, Heq.
    rewrite Ho, Heq. by injection Ht as <-.
  - intros os' o Hos' Ho. rewrite Hos in Hos'. injection Hos' as <-.
    apply list_elem_of_lookup in Ho as [i Hi].
    destruct (Forall2_lookup_r _ _ _ _ _ Hinfers Hi)
      as (arg' & _ & id & Ht & _).
    intros Hbool. rewrite Hbool in Ht.
    by apply current_type_never_BOOLEAN in Ht.
Qed.

Lemma ping_with_flag_gets_INTEGER :
  exists command h',
    slash_command ping_with_flag None None None ∅ 0%nat
    = Ok ((command, stage None command ∅), h').
Proof.
  apply (proj2 (proj2 (proj2 bool_annotation_infers_INTEGER))).
  repeat constructor. by exists INTEGER.
Defined.

(** ** Staging *)

(** One staging step: the command goes to the end of the list of its scope
    and no other list changes. *)
Lemma stage_lookup (guild_id : option Z) (command : ApplicationCommand)
  (reg : registry) (scope : option Z) :
  stage guild_id command reg !! scope
  = if decide (guild_id = scope)
    then Some (staged_under reg scope ++ [command])
    else reg !! scope.
Proof.
  unfold stage, staged_under. case_decide as Hscope.
  - subst scope. rewrite lookup_alter_eq.
    destruct (reg !! guild_id) as [l|] eqn:Hl.
    + by rewrite Hl.
    + by rewrite lookup_insert_eq.
  - rewrite lookup_alter_ne by done.
    destruct (reg !! guild_id); [done|].
    by rewrite lookup_insert_ne.
Qed.

(** Staging a list of commands: each scope gains the commands of that scope,
    in order. *)
Lemma stage_all_staged_under (commands : list ApplicationCommand)
  (reg : registry) (scope : option Z) :
  staged_under (stage_all commands reg) scope
  = staged_under reg scope ++ filter (fun c => cmd_guild_id c = scope) commands.
Proof.
  revert reg. induction commands as [|c commands IH]; intros reg; simpl.
  - by rewrite filter_nil, app_nil_r.
  - unfold stage_all in *. simpl. rewrite IH. unfold staged_under at 1.
    rewrite stage_lookup, filter_cons.
    case_decide; simpl; [|done]. by rewrite <-app_assoc.
Qed.

Lemma declare_all_cons (d : Declaration) (rest : list Declaration)
  (reg : registry) (h : nat) :
  declare_all (d :: rest) reg h
  = match slash_command (decl_callback d) (decl_name d) (decl_description d)
            (decl_guild_id d) reg h with
    | Ok ((command, reg1), h1) =>
        match declare_all rest reg1 h1 with
        | Ok ((commands, reg2), h2) => Ok ((command :: commands, reg2), h2)
        | Raise e => Raise e
        end
    | Raise e => Raise e
    end.
Proof.
  simpl. unfold bind.
  destruct (slash_command _ _ _ _ _ _) as [[[command reg1] h1]|e]; [|done].
  simpl. by destruct (declare_all rest reg1 h1) as [[[commands reg2] h2]|e].
Qed.

(** The commands a run of declarations returns answer the declarations one
    by one, and each scope holds what it held followed by the commands
    declared for it, in order. *)
Lemma declare_all_spec (decls : list Declaration) (reg : registry) (h : nat)
  (commands : list ApplicationCommand) (reg' : registry) (h' : nat) :
  declare_all decls reg h = Ok ((commands, reg'), h') ->
  Forall2 (fun d c => cmd_guild_id c = decl_guild_id d
                      /\ cmd_callback c = Some (decl_callback d))
          decls commands
  /\ forall scope,
       staged_under reg' scope
       = staged_under reg scope
         ++ filter (fun c => cmd_guild_id c = scope) commands.
Proof.
  revert reg h commands reg' h'.
  induction decls as [|d rest IH]; intros reg h commands reg' h' Hrun.
  - injection Hrun as <- <- <-. split; [constructor|].
    intros scope. by rewrite filter_nil, app_nil_r.
  - rewrite declare_all_cons in Hrun.
    pose proof (slash_command_spec (decl_callback d) (decl_name d)
                  (decl_description d) (decl_guild_id d) reg h) as Hspec.
    destruct (slash_command _ _ _ _ _ _) as [[[command reg1] h1]|e]; [|done].
    destruct (declare_all rest reg1 h1) as [[[others reg2] h2]|e] eqn:Hrest;
      [|done].
    injection Hrun as <- <- <-.
    destruct Hspec as (-> & Hguild & Hcallback & _).
    destruct (IH _ _ _ _ _ Hrest) as (Hall & Hscopes).
    split; [by constructor|].
    intros scope. rewrite Hscopes. unfold staged_under at 1.
    rewrite stage_lookup, filter_cons, Hguild.
    case_decide; simpl; [|done]. by rewrite <-app_assoc.
Qed.

Lemma declare_all_returns (decls : list Declaration) (reg : registry) (h : nat) :
  Forall (fun d => Forall supported (callback_annotations (decl_callback d)))
         decls ->
  exists commands reg' h',
    declare_all decls reg h = Ok ((commands, reg'), h').
Proof.
  intros Hsup. revert reg h.
  induction Hsup as [|d rest Hd _ IH]; intros reg h; [by eexists _, _, _|].
  rewrite declare_all_cons.
  destruct (slash_command_returns (decl_callback d) (decl_name d)
              (decl_description d) (decl_guild_id d) reg h Hd)
    as (command & h1 & ->).
  destruct (IH (stage (decl_guild_id d) command reg) h1)
    as (commands & reg' & h' & ->).
  by eexists _, _, _.
Qed.

(** C8: a staging step puts the command at the end of the list of its scope,
    creating the list when the scope has none, and leaves every other scope
    as it was; after any list of commands is staged, every scope holds what
    it held before followed by exactly the commands of that scope, in
    staging order, none merged or dropped; and a run of [slash_command]
    over declarations whose annotations all have a type returns one command
    per declaration, under the scope of the declaration, staged in that
    way. *)
Theorem staging_appends_in_order :
  (forall guild_id command reg,
     stage guild_id command reg !! guild_id
     = Some (staged_under reg guild_id ++ [command])
     /\ forall scope, scope <> guild_id ->
          stage guild_id command reg !! scope = reg !! scope)
  /\ (forall commands reg scope,
        staged_under (stage_all commands reg) scope
        = staged_under reg scope
          ++ filter (fun c => cmd_guild_id c = scope) commands)
  /\ (forall decls reg h,
        Forall (fun d => Forall supported (callback_annotations (decl_callback d)))
               decls ->
        exists commands reg' h',
          declare_all decls reg h = Ok ((commands, reg'), h')
          /\ Forall2 (fun d c => cmd_guild_id c = decl_guild_id d
                                 /\ cmd_callback c = Some (decl_callback d))
                     decls commands
          /\ forall scope,
               staged_under reg' scope
               = staged_under reg scope
                 ++ filter (fun c => cmd_guild_id c = scope) commands).
Proof.
  split; [|split].
  - intros guild_id command reg. split.
    + rewrite stage_lookup. by case_decide.
    + intros scope Hscope. rewrite stage_lookup. by case_decide.
  - apply stage_all_staged_under.
  - intros decls reg h Hsup.
    destruct (declare_all_returns decls reg h Hsup)
      as (commands & reg' & h' & Hrun).
    exists commands, reg', h'. split; [done|].
    by apply declare_all_spec in Hrun.
Qed.

Lemma three_declarations_staged :
  exists commands reg' h',
    declare_all three_declarations ∅ 0%nat = Ok ((commands, reg'), h')
    /\ Forall2 (fun d c => cmd_guild_id c = decl_guild_id d
                           /\ cmd_callback c = Some (decl_callback d))
               three_declarations commands
    /\ forall scope,
         staged_under reg' scope
         = staged_under ∅ scope
           ++ filter (fun c => cmd_guild_id c = scope) commands.
Proof.
  apply (proj2 (proj2 staging_appends_in_order)).
  repeat constructor.
Defined.

(** The two declarations for guild 7 are both kept. *)
Example three_declarations_lengths :
  exists commands reg' h',
    declare_all three_declarations ∅ 0%nat = Ok ((commands, reg'), h')
    /\ length (staged_under reg' (Some 7)) = 2%nat
    /\ length (staged_under reg' None) = 1%nat
    /\ staged_under reg' (Some 8) = [].
Proof. eexists _, _, _. repeat split; reflexivity. Qed.

(** ** Registration *)

(** Every request of the loop addresses one of the guilds and carries the
    list the loop was given. *)
Lemma guild_loop_requests (bot : Bot) (application_id : Z)
  (commands : list ApplicationCommand) (guilds : list Z) :
  Forall (fun r => exists guild, guild ∈ guilds
                                 /\ r = guild_request application_id guild commands)
         (fst (guild_loop bot application_id commands guilds)).
Proof.
  induction guilds as [|guild rest IH]; simpl; [constructor|].
  rewrite map_id.
  destruct (bot_http_request bot _) as [result|e]; simpl.
  - destruct (guild_loop bot application_id commands rest) as [sent outcome].
    simpl in *. constructor.
    + exists guild. split; [left|done].
    + eapply Forall_impl; [exact IH|].
      intros r (g & Hg & ->). exists g. split; [by right|done].
  - repeat constructor. exists guild. split; [left|done].
Qed.

(** With a transport that answers every request, the loop sends one request
    per guild, in order. *)
Lemma guild_loop_all (bot : Bot) (application_id : Z)
  (commands : list ApplicationCommand) (guilds : list Z) :
  (forall r, exists result, bot_http_request bot r = Ok result) ->
  guild_loop bot application_id commands guilds
  = ((fun guild => guild_request application_id guild commands) <$> guilds, Ok tt).
Proof.
  intros Hok. induction guilds as [|guild rest IH]; simpl; [done|].
  rewrite map_id.
  destruct (Hok (guild_request application_id guild commands)) as [result Hr].
  unfold guild_request in Hr. rewrite Hr, IH. done.
Qed.

(** A pass leaves the staging dictionary as it found it. *)
Lemma register_commands_registry (bot : Bot) (reg : registry) :
  snd (fst (register_commands bot reg)) = reg.
Proof.
  unfold register_commands.
  destruct (bot_application_info bot) as [application_id|e]; [|done].
  by destruct (guild_loop _ _ _ _).
Qed.

(** Every request of a pass is addressed to a guild of the bot and carries
    an empty list. *)
Lemma register_commands_requests (bot : Bot) (reg : registry) :
  Forall (fun r => exists guild, guild ∈ bot_guilds bot
                                 /\ route_guild_id (req_route r) = Some guild
                                 /\ req_json r = [])
         (fst (fst (register_commands bot reg))).
Proof.
  unfold register_commands.
  destruct (bot_application_info bot) as [application_id|e]; [|constructor].
  pose proof (guild_loop_requests bot application_id [] (bot_guilds bot)) as H.
  destruct (guild_loop _ _ _ _) as [sent outcome]. simpl in *.
  eapply Forall_impl; [exact H|].
  intros r (guild & Hguild & ->). by exists guild.
Qed.

(** C2 (the code departs from it): with [ping] staged for guild 7 and a
    transport that answers with one entry carrying the identity 42, 7, 1,
    the pass sends one request for guild 7 with an empty list, succeeds, and
    leaves [ping] in the dictionary without [id], [application_id] and
    [version]; in general a pass never changes the dictionary and never
    sends anything but empty lists. *)
Theorem register_commands_discards_identity :
  register_commands echo_bot {[ Some 7 := [ping_of_guild_7] ]}
  = ([guild_request 7 7 []], {[ Some 7 := [ping_of_guild_7] ]}, Ok tt)
  /\ cmd_id ping_of_guild_7 = None
  /\ ck_id ping_registered = Some 42
  /\ (forall bot reg,
        snd (fst (register_commands bot reg)) = reg
        /\ Forall (fun r => req_json r = []) (fst (fst (register_commands bot reg)))).
Proof.
  repeat split; try reflexivity.
  - apply register_commands_registry.
  - eapply Forall_impl; [apply register_commands_requests|].
    by intros r (guild & _ & _ & Hjson).
Qed.

(** C3 as stated fails: nothing is staged for guild 7, and the pass sends a
    request for guild 7 (with an empty list). *)
Lemma empty_scope_is_submitted :
  staged_under ∅ (Some 7) = []
  /\ submissions_for (Some 7) (fst (fst (register_commands echo_bot ∅)))
     = [guild_request 7 7 []].
Proof. split; reflexivity. Qed.

(** C3, amended: a pass sends no request for a scope for which nothing is
    staged, unless that scope is a guild of the bot; a guild of the bot for
    which nothing is staged is sent a request all the same, once
    [application_info] and the transport answer: the loop has no test on
    what is staged. *)
Theorem unstaged_scope_is_submitted_only_as_bot_guild :
  (forall bot reg scope,
     staged_under reg scope = [] ->
     (forall guild, guild ∈ bot_guilds bot -> scope <> Some guild) ->
     submissions_for scope (fst (fst (register_commands bot reg))) = [])
  /\ (forall bot reg application_id guild,
        staged_under reg (Some guild) = [] ->
        guild ∈ bot_guilds bot ->
        bot_application_info bot = Ok application_id ->
        (forall r, exists result, bot_http_request bot r = Ok result) ->
        guild_request application_id guild []
        ∈ submissions_for (Some guild) (fst (fst (register_commands bot reg)))).
Proof.
  split.
  - intros bot reg scope _ Hscope. unfold submissions_for.
    pose proof (register_commands_requests bot reg) as Hsent.
    induction Hsent as [|r sent (guild & Hguild & Hroute & _) _ IH]; [done|].
    simpl. rewrite IH, Hroute.
    rewrite bool_decide_eq_false_2; [done|].
    intros Heq. by apply (Hscope guild).
  - intros bot reg application_id guild _ Hguild Hinfo Hok.
    unfold register_commands, submissions_for.
    rewrite Hinfo, (guild_loop_all _ _ _ _ Hok). simpl.
    apply list_elem_of_In, filter_In. split.
    + apply list_elem_of_In, list_elem_of_fmap. by exists guild.
    + by apply bool_decide_eq_true.
Qed.

Lemma unstaged_global_scope_is_not_submitted :
  submissions_for None
    (fst (fst (register_commands echo_bot {[ Some 7 := [ping_of_guild_7] ]})))
  = [].
Proof.
  apply (proj1 unstaged_scope_is_submitted_only_as_bot_guild).
  - reflexivity.
  - intros guild _. discriminate.
Defined.

(** * Further properties *)

(** ** Required keys *)

(** X2: a constructor given a mapping without one of its required keys
    raises [TypeError] whatever the other keys hold (an unknown type tag
    included), and so does [from_payload] on [None]. *)
Theorem missing_required_key_raises_TypeError :
  (forall kw,
     ckw_name kw = None \/ ckw_value kw = None ->
     ApplicationCommandOptionChoice_init kw = Raise TypeError)
  /\ (forall kw h,
        kw_type kw = None \/ kw_name kw = None \/ kw_description kw = None ->
        ApplicationCommandOption_from_payload (Some kw) h = Raise TypeError)
  /\ (forall kw h,
        ck_name kw = None \/ ck_description kw = None ->
        ApplicationCommand_from_payload (Some kw) h = Raise TypeError)
  /\ (forall h, ApplicationCommandOption_from_payload None h = Raise TypeError)
  /\ (forall h, ApplicationCommand_from_payload None h = Raise TypeError).
Proof.
  repeat split; try done.
  - intros [n v] [H|H]; simpl in H; subst; [done|].
    unfold ApplicationCommandOptionChoice_init; simpl. by destruct n.
  - intros kw h H. destruct kw as [t n d ? ? ? ? ? ? ?]; simpl in *.
    destruct H as [->|[->| ->]]; [done| |].
    + by destruct t.
    + by destruct t, n.
  - intros kw h [H|H]; unfold ApplicationCommand_from_payload,
      ApplicationCommand_init; rewrite H; [done|].
    by destruct (ck_name kw).
Qed.

Lemma type_99_without_name_raises_TypeError :
  ApplicationCommandOption_from_payload
    (Some {| kw_type := Some (TypeInt 99); kw_name := None;
             kw_description := Some "d"; kw_required := None;
             kw_choices := None; kw_options := None;
             kw_channel_types := None; kw_min_value := None;
             kw_max_value := None; kw_autocomplete := None |}) 0%nat
  = Raise TypeError.
Proof.
  apply (proj1 (proj2 missing_required_key_raises_TypeError)).
  right. left. reflexivity.
Defined.

(** ** Reflexivity *)

(** X3: an option compares equal to itself exactly when it has neither
    choices nor nested options, or an empty list of each. *)
Theorem option_equals_itself_iff :
  forall a,
    ApplicationCommandOption_eq a a = true <->
    (opt_choices a = None /\ opt_options a = None)
    \/ (opt_choices a = Some [] /\ opt_options a = Some []).
Proof.
  intros a. rewrite ApplicationCommandOption_eq_spec.
  rewrite (optlist_ne_same _ _ _ option_is_refl), choices_ne_options.
  tauto.
Qed.

Lemma optlist_ne_empty_r {A} (same eq : A -> A -> bool) (x : option (list A)) :
  optlist_ne same eq x (Some []) = false -> x = Some [].
Proof. by destruct x as [[|a l]|]. Qed.

Lemma optlist_ne_None_r {A} (same eq : A -> A -> bool) (x : option (list A)) :
  optlist_ne same eq x None = false -> x = None.
Proof. by destruct x. Qed.

(** X4: when [a == b] answers [True], the two options agree on type value,
    name, description, required, autocomplete, bounds and channel types,
    [a] has no choice and neither option has a nested option; and the
    answer never depends on the choices of [b], which are not read. *)
Theorem equal_options_are_flat :
  (forall a b,
     ApplicationCommandOption_eq a b = true ->
     OptionType_value (opt_type a) = OptionType_value (opt_type b)
     /\ opt_name a = opt_name b
     /\ opt_description a = opt_description b
     /\ opt_required a = opt_required b
     /\ opt_autocomplete a = opt_autocomplete b
     /\ opt_min_value a = opt_min_value b
     /\ opt_max_value a = opt_max_value b
     /\ opt_channel_types a = opt_channel_types b
     /\ ((opt_choices a = None /\ opt_options a = None /\ opt_options b = None)
         \/ (opt_choices a = Some [] /\ opt_options a = Some []
             /\ opt_options b = Some [])))
  /\ (forall a b choices,
        ApplicationCommandOption_eq a (with_choices b choices)
        = ApplicationCommandOption_eq a b).
Proof.
  split.
  - intros a b Heq.
    apply ApplicationCommandOption_eq_spec in Heq
      as (Ht & Hn & Hd & Hau & Hmax & Hmin & Hch & Hr & Hos & Hcs).
    repeat (split; [done|]).
    apply choices_ne_options in Hcs as [[Hc Hb]|[Hc Hb]]; rewrite Hb in Hos.
    + left. by apply optlist_ne_None_r in Hos.
    + right. by apply optlist_ne_empty_r in Hos.
  - intros a b choices. by destruct a.
Qed.

Lemma equal_string_options_are_flat :
  opt_choices (string_option 1 None) = None
  /\ opt_options (string_option 1 None) = None
  /\ opt_options (string_option 2 (Some [choice_a])) = None
  \/ opt_choices (string_option 1 None) = Some []
     /\ opt_options (string_option 1 None) = Some []
     /\ opt_options (string_option 2 (Some [choice_a])) = Some [].
Proof.
  apply (proj1 equal_options_are_flat (string_option 1 None)
           (string_option 2 (Some [choice_a]))).
  reflexivity.
Defined.

(** X5: a command always compares equal to itself, whatever its options
    are, and the answer of the comparison does not depend on the identity
    fields, the callback or the cog of either operand. *)
Theorem command_equality_ignores_registration :
  (forall c, ApplicationCommand_eq c c = true)
  /\ (forall a b id application_id version callback cog,
        ApplicationCommand_eq
          (with_registration a id application_id version callback cog) b
        = ApplicationCommand_eq a b
        /\ ApplicationCommand_eq
             a (with_registration b id application_id version callback cog)
           = ApplicationCommand_eq a b).
Proof.
  split.
  - intros c. apply ApplicationCommand_eq_spec.
    by rewrite (optlist_ne_same _ _ _ option_is_refl).
  - intros. split; reflexivity.
Qed.

(** ** Construction from instances and from mixed lists *)

Lemma no_raw_among_instances {T K} (l : list T) :
  existsb (fun x : item T K => negb (is_inst x)) (Inst <$> l) = false.
Proof. induction l as [|x l IH]; simpl; [done|]. exact IH. Qed.

Lemma instances_of_instances {T K} (l : list T) :
  instances (K:=K) (Inst <$> l) = l.
Proof. induction l as [|x l IH]; simpl; [done|]. by f_equal. Qed.

(** The loop of lines 130-131 is [pmap build_option]. *)
Lemma build_options_pmap (l : list (item ApplicationCommandOption OptionKwargs))
  (h : nat) :
  (fix build (l : list (item ApplicationCommandOption OptionKwargs))
     : Py (list ApplicationCommandOption) :=
     match l with
     | [] => ret []
     | Raw kw' :: l' =>
         o <-- ApplicationCommandOption_init kw' ;;
         os <-- build l' ;;
         ret (o :: os)
     | Inst _ :: _ => raise TypeError
     end) l h
  = pmap build_option l h.
Proof.
  revert h. induction l as [|x l IH]; intros h; [done|].
  rewrite pmap_cons. destruct x as [o|kw]; [done|].
  simpl. unfold bind at 1.
  destruct (ApplicationCommandOption_init kw h) as [[o h1]|e]; [|done].
  unfold bind at 1. rewrite IH. by destruct (pmap build_option l h1) as [[os h2]|e].
Qed.

(** [ApplicationCommandOption_init] once the required keys are bound. *)
Lemma ApplicationCommandOption_init_unfold (kw : OptionKwargs) (h : nat)
  (type : type_arg ApplicationCommandOptionType) (name description : string) :
  kw_type kw = Some type ->
  kw_name kw = Some name ->
  kw_description kw = Some description ->
  ApplicationCommandOption_init kw h
  = match coerce_type OptionType_call type with
    | Raise e => Raise e
    | Ok t =>
        match post_init_choices (kw_choices kw) with
        | Raise e => Raise e
        | Ok choices =>
            match
              match kw_options kw with
              | None => Ok (None, S h)
              | Some l =>
                  if existsb (fun x => negb (is_inst x)) l
                  then match pmap build_option l (S h) with
                       | Ok (os, h') => Ok (Some os, h')
                       | Raise e => Raise e
                       end
                  else Ok (Some (instances l), S h)
              end
            with
            | Raise e => Raise e
            | Ok (options, h') =>
                Ok ({| opt_id := h; opt_type := t; opt_name := name;
                       opt_description := description;
                       opt_required := default false (kw_required kw);
                       opt_choices := choices; opt_options := options;
                       opt_channel_types := kw_channel_types kw;
                       opt_min_value := kw_min_value kw;
                       opt_max_value := kw_max_value kw;
                       opt_autocomplete := default false (kw_autocomplete kw) |},
                    h')
            end
        end
    end.
Proof.
  intros Htype Hname Hdescription.
  destruct kw as [? ? ? ? choices options ? ? ? ?]; simpl in *. subst.
  unfold bind at 1. unfold new_object at 1. unfold bind at 1, lift at 1.
  destruct (coerce_type OptionType_call type) as [t|e]; [|done].
  unfold bind at 1, lift at 1.
  destruct (post_init_choices choices) as [cs|e]; [|done].
  unfold bind at 1.
  destruct options as [l|]; [|done].
  destruct (existsb _ l); [|done].
  unfold bind at 1. rewrite build_options_pmap.
  by destruct (pmap build_option l (S h)) as [[os h']|e].
Qed.

(** X6: built from choices and options that are instances already, an
    option stores exactly those objects, in order, and allocates nothing
    but itself. *)
Theorem construction_keeps_instances :
  forall t name description required choices options channel_types
         min_value max_value autocomplete h,
    ApplicationCommandOption_init
      {| kw_type := Some (TypeMember t); kw_name := Some name;
         kw_description := Some description; kw_required := Some required;
         kw_choices := Some (Inst <$> choices);
         kw_options := Some (Inst <$> options);
         kw_channel_types := channel_types; kw_min_value := min_value;
         kw_max_value := max_value; kw_autocomplete := Some autocomplete |} h
    = Ok ({| opt_id := h; opt_type := t; opt_name := name;
             opt_description := description; opt_required := required;
             opt_choices := Some choices; opt_options := Some options;
             opt_channel_types := channel_types; opt_min_value := min_value;
             opt_max_value := max_value; opt_autocomplete := autocomplete |},
          S h).
Proof.
  intros. erewrite ApplicationCommandOption_init_unfold by done.
  cbn [coerce_type kw_choices kw_options post_init_choices].
  by rewrite !no_raw_among_instances, !instances_of_instances.
Qed.

(** Rebuilding a list of choices that holds an instance fails. *)
Lemma rebuild_choices_with_instance
  (l : list (item ApplicationCommandOptionChoice ChoiceKwargs)) :
  (exists c, Inst c ∈ l) ->
  rmap (fun x => kw <-? star_star x ;; ApplicationCommandOptionChoice_init kw) l
  = Raise TypeError.
Proof.
  intros [c Hc]. induction l as [|x l IH]; [by apply elem_of_nil in Hc|].
  simpl. destruct x as [c'|kw]; simpl; [done|].
  apply elem_of_cons in Hc as [Hc|Hc]; [done|].
  unfold ApplicationCommandOptionChoice_init at 1.
  destruct (ckw_name kw), (ckw_value kw); simpl; try done.
  by rewrite (IH Hc).
Qed.

(** X7: a [choices] list that mixes instances with raw mappings makes the
    construction raise [TypeError], once the required keys are there and
    the type is accepted. *)
Theorem mixed_choices_raise_TypeError :
  forall kw type t name description l h,
    kw_type kw = Some type ->
    coerce_type OptionType_call type = Ok t ->
    kw_name kw = Some name ->
    kw_description kw = Some description ->
    kw_choices kw = Some l ->
    (exists c, Inst c ∈ l) ->
    (exists raw, Raw raw ∈ l) ->
    ApplicationCommandOption_init kw h = Raise TypeError.
Proof.
  intros kw type t name description l h Htype Ht Hname Hdescription Hl Hinst
    [raw Hraw].
  erewrite ApplicationCommandOption_init_unfold by done.
  rewrite Ht, Hl. unfold post_init_choices.
  replace (existsb _ l) with true.
  - by rewrite (rebuild_choices_with_instance l Hinst).
  - symmetry. apply existsb_exists. exists (Raw raw).
    split; [by apply list_elem_of_In|done].
Qed.

Lemma mixed_choices_example :
  ApplicationCommandOption_init
    {| kw_type := Some (TypeInt 3); kw_name := Some "x";
       kw_description := Some "d"; kw_required := None;
       kw_choices :=
         Some [Raw (ApplicationCommandOptionChoice_repr choice_a); Inst choice_a];
       kw_options := None; kw_channel_types := None; kw_min_value := None;
       kw_max_value := None; kw_autocomplete := None |} 0%nat
  = Raise TypeError.
Proof.
  eapply (mixed_choices_raise_TypeError _ (TypeInt 3) STRING "x" "d");
    try reflexivity.
  - exists choice_a. right. left.
  - exists (ApplicationCommandOptionChoice_repr choice_a). left.
Defined.

(** ** Interaction data options *)

Lemma items_eq_same {A} (same : A -> A -> bool) (eq : A -> A -> result bool)
  (l : list A) :
  (forall x, same x x = true) -> raising_list_eq same eq l l = Ok true.
Proof.
  intros Hsame. unfold raising_list_eq. rewrite Nat.eqb_refl.
  induction l as [|x l IH]; simpl; [done|]. by rewrite Hsame.
Qed.

(** X16: two interaction data options with the same name and type cannot be
    compared when one of them has no value (the default): [__eq__] raises
    [AttributeError], even on an option and itself; when the names or the
    types differ it answers [False] without reading the values; and an
    option that has a value equals itself, whatever it nests. *)
Theorem data_option_eq_raises_without_value :
  (forall a b,
     ido_name a = ido_name b ->
     ido_type a = ido_type b ->
     ido_value a = None \/ ido_value b = None ->
     ApplicationCommandInteractionDataOption_eq a b = Raise AttributeError)
  /\ (forall a b,
        ido_name a <> ido_name b \/ ido_type a <> ido_type b ->
        ApplicationCommandInteractionDataOption_eq a b = Ok false)
  /\ (forall a v,
        ido_value a = Some v ->
        ApplicationCommandInteractionDataOption_eq a a = Ok true).
Proof.
  split; [|split]; cycle 2.
  { intros [? n t v' os f] v Hv. simpl in *. subst.
    rewrite !py_ne_refl.
    destruct os as [l|]; simpl; [|done].
    rewrite items_eq_same; [done|]. intros x. apply Nat.eqb_refl. }
  - intros [? n1 t1 v1 ? ?] [? n2 t2 v2 ? ?] Hname Htype Hvalue.
    simpl in *. subst. rewrite !py_ne_refl.
    destruct Hvalue as [->| ->]; [done|]. by destruct v1.
  - intros [? n1 t1 ? ? ?] [? n2 t2 ? ? ?] Hdiff. simpl in *.
    destruct (py_ne n1 n2) eqn:Hn; [done|].
    apply (proj1 (py_ne_false _ _)) in Hn.
    destruct (py_ne t1 t2) eqn:Ht; [done|].
    apply (proj1 (py_ne_false _ _)) in Ht.
    by destruct Hdiff.
Qed.

Lemma default_data_option_eq_itself_raises :
  ApplicationCommandInteractionDataOption_eq
    (mkDataOption 1 "n" 3 None None false)
    (mkDataOption 1 "n" 3 None None false)
  = Raise AttributeError.
Proof.
  apply (proj1 data_option_eq_raises_without_value); [done|done|by left].
Defined.

(** ** The mapping of a rebuilt value *)

(** Induction on options through their lists of nested options. *)
Lemma ApplicationCommandOption_nested_ind (P : ApplicationCommandOption -> Prop) :
  (forall o,
     match opt_options o with Some l => Forall P l | None => True end -> P o) ->
  forall o, P o.
Proof.
  intros Hstep. fix IH 1. intros o. apply Hstep.
  destruct o as [? ? ? ? ? ? [l|] ? ? ? ?]; simpl; [|exact I].
  revert l. fix IHl 1. intros [|x l].
  - constructor.
  - constructor; [apply IH|apply IHl].
Qed.

(** Line 149 on one nested option. *)
Local Abbreviation repr_item :=
  (fun o => d <-? ApplicationCommandOption_repr o ;;
            Ok (Raw (T:=ApplicationCommandOption) d)).

Lemma ApplicationCommandOption_repr_unfold (self : ApplicationCommandOption) :
  ApplicationCommandOption_repr self
  = (options <-?
       match opt_options self with
       | None => Ok None
       | Some l => ds <-? rmap repr_item l ;; Ok (Some ds)
       end ;;
     channel_types <-?
       match opt_channel_types self with
       | None => Ok None
       | Some l =>
           vs <-? rmap (fun c => v <-? channel_item_value c ;; Ok (ChannelInt v)) l ;;
           Ok (Some vs)
       end ;;
     Ok {| kw_type := Some (TypeInt (OptionType_value (opt_type self)));
           kw_name := Some (opt_name self);
           kw_description := Some (opt_description self);
           kw_required := Some (opt_required self);
           kw_choices :=
             option_map
               (List.map (fun c => Raw (ApplicationCommandOptionChoice_repr c)))
               (opt_choices self);
           kw_options := options;
           kw_channel_types := channel_types;
           kw_min_value := opt_min_value self;
           kw_max_value := opt_max_value self;
           kw_autocomplete := Some (opt_autocomplete self) |}).
Proof. by destruct self. Qed.

(** Lines 122-126 on the choices [__repr__] wrote give the choices back. *)
Lemma post_init_choices_repr (cs : option (list ApplicationCommandOptionChoice)) :
  post_init_choices
    (option_map (List.map (fun c => Raw (ApplicationCommandOptionChoice_repr c))) cs)
  = Ok cs.
Proof.
  destruct cs as [[|c cs]|]; try done.
  unfold post_init_choices. simpl.
  replace (rmap _ _) with (Ok (A:=list ApplicationCommandOptionChoice) cs);
    [by destruct c|].
  induction cs as [|c' cs IH]; simpl; [done|].
  rewrite <-IH. by destruct c'.
Qed.

(** The channel types of an option free of them serialize to themselves. *)
Lemma channel_free_types (o : ApplicationCommandOption) :
  channel_free o = true ->
  match opt_channel_types o with
  | None => Ok None
  | Some l =>
      vs <-? rmap (fun c => v <-? channel_item_value c ;; Ok (ChannelInt v)) l ;;
      Ok (Some vs)
  end = Ok (opt_channel_types o)
  /\ match opt_options o with
     | Some l => forallb channel_free l = true
     | None => True
     end.
Proof.
  destruct o as [? ? ? ? ? ? os [[|c ch]|] ? ? ?]; simpl; try done;
    by destruct os.
Qed.

(** An option rebuilt from the mapping of an option free of channel types
    serializes to that mapping again; the same for lists of them. *)
Lemma option_wire_roundtrip (o : ApplicationCommandOption) :
  channel_free o = true ->
  forall h, exists d o' h',
    ApplicationCommandOption_repr o = Ok d
    /\ ApplicationCommandOption_init d h = Ok (o', h')
    /\ ApplicationCommandOption_repr o' = Ok d.
Proof.
  induction o as [o IH] using ApplicationCommandOption_nested_ind.
  intros Hfree h.
  destruct (channel_free_types o Hfree) as [Hch Hnested].
  destruct (OptionType_call_value (opt_type o)) as (t' & Hcall & Hvalue).
  assert (exists ds os' h',
             match opt_options o with
             | None => Ok None
             | Some l => ds <-? rmap repr_item l ;; Ok (Some ds)
             end = Ok ds
             /\ match ds with
                | None => Ok (None, S h)
                | Some l =>
                    if existsb (fun x => negb (is_inst x)) l
                    then match pmap build_option l (S h) with
                         | Ok (os, h') => Ok (Some os, h')
                         | Raise e => Raise e
                         end
                    else Ok (Some (instances l), S h)
                end = Ok (os', h')
             /\ match os' with
                | None => Ok None
                | Some l => ds <-? rmap repr_item l ;; Ok (Some ds)
                end = Ok ds) as (ds & os' & h' & Hds & Hos' & Hback).
  { destruct (opt_options o) as [l|]; [|by exists None, None, (S h)].
    assert (forall h, exists ds os' h',
               rmap repr_item l = Ok ds
               /\ existsb (fun x => negb (is_inst x)) ds
                  = negb (Nat.eqb (length l) 0)
               /\ pmap build_option ds h = Ok (os', h')
               /\ (l = [] -> os' = [])
               /\ rmap repr_item os' = Ok ds) as Hlist.
    { clear h. induction IH as [|x l Hx _ IHl]; intros h.
      - by exists [], [], h.
      - simpl in Hnested. apply andb_true_iff in Hnested as [Hfx Hfl].
        destruct (Hx Hfx h) as (d & x' & h1 & Hd & Hx' & Hd').
        destruct (IHl Hfl h1) as (ds & os' & h2 & Hds & _ & Hos' & _ & Hds').
        exists (Raw d :: ds), (x' :: os'), h2.
        rewrite pmap_cons. simpl. rewrite Hd, Hds, Hx', Hos'. simpl.
        by rewrite Hd', Hds'. }
    destruct (Hlist (S h)) as (ds & os' & h' & Hds & Hraw & Hos' & Hnil & Hds').
    exists (Some ds), (Some os'), h'. rewrite Hds, Hraw. simpl.
    destruct l as [|x l]; simpl.
    - simpl in Hds. injection Hds as <-.
      unfold pmap, ret in Hos'. by injection Hos' as <- <-.
    - by rewrite Hos', Hds'. }
  eexists _, _, _. rewrite ApplicationCommandOption_repr_unfold, Hds, Hch.
  split; [reflexivity|].
  erewrite ApplicationCommandOption_init_unfold by reflexivity.
  cbn [coerce_type kw_choices kw_options kw_required kw_channel_types
       kw_min_value kw_max_value kw_autocomplete default].
  rewrite Hcall, post_init_choices_repr, Hos'.
  split; [reflexivity|].
  rewrite ApplicationCommandOption_repr_unfold.
  cbn [opt_options opt_channel_types opt_type opt_name opt_description
       opt_required opt_choices opt_min_value opt_max_value opt_autocomplete].
  by rewrite Hback, Hch, Hvalue.
Qed.

(** X8: for an option tree without channel types, with any choices and any
    nested options, the mapping written by [__repr__] is accepted by
    [from_payload], and the rebuilt option serializes to the same
    mapping. *)
Theorem option_mapping_survives_rebuild :
  forall o h,
    channel_free o = true ->
    exists d o' h',
      ApplicationCommandOption_repr o = Ok d
      /\ ApplicationCommandOption_from_payload (Some d) h = Ok (o', h')
      /\ ApplicationCommandOption_repr o' = Ok d.
Proof. intros o h Hfree. by apply option_wire_roundtrip. Qed.

Lemma sub_command_mapping_survives_rebuild :
  exists d o' h',
    ApplicationCommandOption_repr sub_command_option = Ok d
    /\ ApplicationCommandOption_from_payload (Some d) 6%nat = Ok (o', h')
    /\ ApplicationCommandOption_repr o' = Ok d.
Proof.
  apply (option_mapping_survives_rebuild sub_command_option 6%nat).
  reflexivity.
Defined.

Lemma options_wire_roundtrip (l : list ApplicationCommandOption) (h : nat) :
  forallb channel_free l = true ->
  exists ds os' h',
    rmap ApplicationCommandOption_repr l = Ok ds
    /\ pmap (fun kw => ApplicationCommandOption_from_payload (Some kw)) ds h
       = Ok (os', h')
    /\ rmap ApplicationCommandOption_repr os' = Ok ds.
Proof.
  revert h. induction l as [|o l IH]; intros h Hfree; [by exists [], [], h|].
  simpl in Hfree. apply andb_true_iff in Hfree as [Ho Hl].
  destruct (option_wire_roundtrip o Ho h) as (d & o' & h1 & Hd & Ho' & Hd').
  destruct (IH h1 Hl) as (ds & os' & h2 & Hds & Hos' & Hds').
  exists (d :: ds), (o' :: os'), h2.
  rewrite pmap_cons. unfold ApplicationCommandOption_from_payload at 1.
  rewrite Ho', Hos'. simpl. by rewrite Hd, Hds, Hd', Hds'.
Qed.

(** X9: for a command whose options carry no channel types, the mapping
    written by [__repr__] is accepted by [from_payload], and the rebuilt
    command serializes to the same mapping, identity fields and guild
    included. *)
Theorem command_mapping_survives_rebuild :
  forall c h,
    (forall l, cmd_options c = Some l -> forallb channel_free l = true) ->
    exists d c' h',
      ApplicationCommand_repr c = Ok d
      /\ ApplicationCommand_from_payload (Some d) h = Ok (c', h')
      /\ ApplicationCommand_repr c' = Ok d.
Proof.
  intros c h Hfree.
  unfold ApplicationCommand_repr at 1, ApplicationCommand_from_payload.
  destruct (cmd_options c) as [l|] eqn:Hl; simpl.
  - destruct (options_wire_roundtrip l h (Hfree l eq_refl))
      as (ds & os' & h' & Hds & Hos' & Hds').
    rewrite Hds; simpl. eexists _, _, _. split; [done|].
    erewrite ApplicationCommand_init_unfold by done.
    cbn -[init_options CommandType_call].
    rewrite CommandType_call_value, init_options_raw, Hos'.
    split; [done|].
    unfold ApplicationCommand_repr; simpl. by rewrite Hds'.
  - eexists _, _, _. split; [done|].
    erewrite ApplicationCommand_init_unfold by done. simpl.
    rewrite CommandType_call_value. split; [done|].
    unfold ApplicationCommand_repr; simpl. done.
Qed.

Lemma ping_with_count_mapping_survives_rebuild :
  exists d c' h',
    ApplicationCommand_repr ping_with_count = Ok d
    /\ ApplicationCommand_from_payload (Some d) 2%nat = Ok (c', h')
    /\ ApplicationCommand_repr c' = Ok d.
Proof.
  apply (command_mapping_survives_rebuild ping_with_count 2%nat).
  by intros l [= <-].
Defined.

Lemma channel_members_serialize (vs : list Z) :
  rmap (fun c => v <-? channel_item_value c ;; Ok (ChannelInt v))
       (ChannelMember <$> vs)
  = Ok (ChannelInt <$> vs).
Proof. induction vs as [|v vs IH]; csimpl; [done|]. by rewrite IH. Qed.

(** X10: an option with a non-empty list of channel types serializes, and
    the option rebuilt from that mapping keeps the bare integers of the
    mapping as its channel types, so serializing it again raises
    [AttributeError]. *)
Theorem rebuilt_channel_types_do_not_serialize :
  forall o v vs h,
    opt_options o = None ->
    opt_channel_types o = Some (ChannelMember <$> (v :: vs)) ->
    exists d o' h',
      ApplicationCommandOption_repr o = Ok d
      /\ ApplicationCommandOption_from_payload (Some d) h = Ok (o', h')
      /\ opt_channel_types o' = Some (ChannelInt <$> (v :: vs))
      /\ ApplicationCommandOption_repr o' = Raise AttributeError.
Proof.
  intros o v vs h Hoptions Hchannels.
  destruct (OptionType_call_value (opt_type o)) as (t' & Hcall & Hvalue).
  eexists _, _, _.
  rewrite ApplicationCommandOption_repr_unfold, Hoptions, Hchannels,
    channel_members_serialize.
  split; [reflexivity|]. unfold ApplicationCommandOption_from_payload.
  erewrite ApplicationCommandOption_init_unfold by reflexivity.
  cbn [coerce_type kw_choices kw_options kw_required kw_channel_types
       kw_min_value kw_max_value kw_autocomplete default].
  rewrite Hcall, post_init_choices_repr.
  split; [reflexivity|]. split; reflexivity.
Qed.

Lemma channel_option_does_not_serialize_twice :
  exists d o' h',
    ApplicationCommandOption_repr channel_option = Ok d
    /\ ApplicationCommandOption_from_payload (Some d) 6%nat = Ok (o', h')
    /\ opt_channel_types o' = Some (ChannelInt <$> [0])
    /\ ApplicationCommandOption_repr o' = Raise AttributeError.
Proof.
  apply (rebuilt_channel_types_do_not_serialize channel_option 0 [] 6%nat);
    reflexivity.
Defined.

(** ** Declarations *)

(** [slash_command] with the command it builds spelled out. *)
Lemma slash_command_unfold (callback : Callback) (name description : option string)
  (guild_id : option Z) (reg : registry) (h : nat) :
  slash_command callback name description guild_id reg h
  = match
      match callback_annotations callback with
      | [] => Ok (None, h)
      | annotations =>
          match pmap infer_option annotations h with
          | Ok (os, h') => Ok (Some os, h')
          | Raise e => Raise e
          end
      end
    with
    | Raise e => Raise e
    | Ok (options, h') =>
        let command :=
          {| cmd_callback := Some callback; cmd_id := None;
             cmd_type := CHAT_INPUT; cmd_application_id := None;
             cmd_guild_id := guild_id;
             cmd_name := chosen_name callback name;
             cmd_description := chosen_description callback description;
             cmd_options := options; cmd_default_permission := true;
             cmd_default_member_permissions := None;
             cmd_dm_permission := None; cmd_version := None;
             cmd_cog := None |} in
        Ok ((command, stage guild_id command reg), h')
    end.
Proof.
  unfold slash_command, chosen_name, chosen_description.
  set (description1 := if falsy description then _ else _).
  set (description2 := if falsy description1 then _ else _).
  set (name1 := if falsy name then _ else _).
  assert (exists n, name1 = Some n) as [n Hn].
  { subst name1. destruct (falsy name) eqn:Hf; [by eexists|].
    by apply falsy_false. }
  assert (exists d, description2 = Some d) as [d Hd].
  { subst description2. destruct (falsy description1) eqn:Hf; [by eexists|].
    by apply falsy_false. }
  rewrite Hn, Hd. clearbody name1 description2. clear description1.
  unfold bind at 1.
  destruct (callback_annotations callback) as [|arg annotations].
  - simpl. done.
  - unfold bind.
    destruct (pmap infer_option (arg :: annotations) h) as [[os h']|e]; [|done].
    unfold ret at 1.
    erewrite ApplicationCommand_init_unfold by done.
    cbn -[init_options stage].
    rewrite (init_options_instances (Some os)). done.
Qed.

(** X11: a command returned by [slash_command] never has an empty
    description: it is the one given when that is not empty, else the
    docstring when that is not empty, else ['No description yet']; its name
    is the one given unless that is missing or empty, then that of the
    callback; it is a chat-input command of the given scope, without
    identity. *)
Theorem declared_command_has_a_description :
  forall callback name description guild_id reg h command reg' h',
    slash_command callback name description guild_id reg h
    = Ok ((command, reg'), h') ->
    cmd_description command <> ""
    /\ (falsy description = false ->
        Some (cmd_description command) = description)
    /\ (falsy description = true -> falsy (callback_doc callback) = false ->
        Some (cmd_description command) = callback_doc callback)
    /\ (falsy description = true -> falsy (callback_doc callback) = true ->
        cmd_description command = "No description yet")
    /\ (falsy name = false -> Some (cmd_name command) = name)
    /\ (falsy name = true -> cmd_name command = callback_name callback)
    /\ cmd_type command = CHAT_INPUT
    /\ cmd_guild_id command = guild_id
    /\ cmd_id command = None
    /\ cmd_application_id command = None
    /\ cmd_version command = None.
Proof.
  intros callback name description guild_id reg h command reg' h' Hcall.
  rewrite slash_command_unfold in Hcall.
  destruct (match callback_annotations callback with [] => _ | _ => _ end)
    as [[options h1]|e]; [|done].
  injection Hcall as <- _ _. simpl.
  unfold chosen_description, chosen_name.
  destruct (callback_doc callback) as [[|? ?]|], description as [[|? ?]|],
    name as [[|? ?]|]; simpl; repeat split; done.
Qed.

Lemma pong_gets_the_default_description :
  exists command reg' h',
    slash_command pong (Some "") None (Some 7) ∅ 0%nat = Ok ((command, reg'), h')
    /\ cmd_description command = "No description yet"
    /\ cmd_name command = "pong".
Proof.
  eexists _, _, _. split; [reflexivity|].
  pose proof (declared_command_has_a_description
                pong (Some "") None (Some 7) ∅ 0%nat _ _ _ eq_refl)
    as (_ & _ & _ & Hdefault & _ & Hname & _).
  split; [by apply Hdefault|by apply Hname].
Defined.

(** An annotation settled before line 358 gets one of four types. *)
Lemma typed_before_line_358_type (a : annotation) :
  typed_before_line_358 a = true ->
  exists t, current_type_of a = Ok t /\ t ∈ [STRING; INTEGER; USER; CHANNEL].
Proof.
  destruct a as [c|]; simpl; [|done]. intros Hearly.
  destruct (issubclass c Class_str); [exists STRING; split; [done|set_solver]|].
  destruct (issubclass c Class_int) eqn:Hint;
    [exists INTEGER; split; [done|set_solver]|].
  destruct (issubclass c Class_bool) eqn:Hbool.
  { apply issubclass_bool_int in Hbool. congruence. }
  destruct (issubclass c Class_User); [exists USER; split; [done|set_solver]|].
  destruct (issubclass c Class_GuildChannel); [|done].
  exists CHANNEL. split; [done|set_solver].
Qed.

Lemma typed_before_line_358_supported (arg : string * annotation) :
  typed_before_line_358 (snd arg) = true -> supported arg.
Proof.
  intros Hearly.
  destruct (typed_before_line_358_type _ Hearly) as (t & Ht & _). by exists t.
Qed.

Lemma raised_before_line_360_raises (a : annotation) (e : exn) :
  raised_before_line_360 a = Some e -> current_type_of a = Raise e.
Proof.
  destruct a as [c|]; simpl; [|by intros [= <-]].
  destruct (issubclass c Class_str); [done|].
  destruct (issubclass c Class_int); [done|].
  destruct (issubclass c Class_bool); [done|].
  destruct (issubclass c Class_User); [done|].
  destruct (issubclass c Class_GuildChannel); [done|]. simpl.
  destruct (issubclass c Class_Role); [by intros [= <-]|done].
Qed.

(** X12: when every annotation of the callback is a class deriving from
    [str], [int], [discord.User] or [discord.abc.GuildChannel],
    [slash_command] returns and stages a command whose options answer the
    annotations one for one, in order and under their names; each option
    has the type the chain gives its annotation, one of STRING, INTEGER,
    USER and CHANNEL, the description ['temporary description'], is not
    required and has no choices, nested options, channel types or bounds;
    without annotations the command has no option list. *)
Theorem declared_options_follow_annotations :
  forall callback name description guild_id reg h,
    Forall (fun arg => typed_before_line_358 (snd arg) = true)
           (callback_annotations callback) ->
    exists command h',
      slash_command callback name description guild_id reg h
      = Ok ((command, stage guild_id command reg), h')
      /\ match callback_annotations callback with
         | [] => cmd_options command = None
         | annotations =>
             exists os,
               cmd_options command = Some os
               /\ Forall2 (fun arg o =>
                             infers arg o
                             /\ opt_type o ∈ [STRING; INTEGER; USER; CHANNEL])
                          annotations os
         end.
Proof.
  intros callback name description guild_id reg h Hearly.
  assert (Forall supported (callback_annotations callback)) as Hsup.
  { eapply Forall_impl; [exact Hearly|].
    intros arg. apply typed_before_line_358_supported. }
  destruct (slash_command_returns callback name description guild_id reg h Hsup)
    as (command & h' & Hcall).
  exists command, h'. split; [done|].
  pose proof (slash_command_spec callback name description guild_id reg h)
    as Hspec.
  rewrite Hcall in Hspec. destruct Hspec as (_ & _ & _ & Hoptions).
  destruct (callback_annotations callback) as [|arg annotations]; [done|].
  destruct Hoptions as (os & Hos & Hinfers). exists os. split; [done|].
  clear Hos Hcall Hsup. revert Hearly.
  induction Hinfers as [|a o l k Ho _ IH]; intros Hearly; [constructor|].
  apply Forall_cons in Hearly as [Ha Hl].
  constructor; [|by apply IH]. split; [done|].
  destruct Ho as (id & Ht & _).
  destruct (typed_before_line_358_type _ Ha) as (t & Ht' & Hin).
  rewrite Ht in Ht'. by injection Ht' as ->.
Qed.

Lemma kick_options :
  exists command h',
    slash_command kick None None None ∅ 0%nat
    = Ok ((command, stage None command ∅), h')
    /\ exists os,
         cmd_options command = Some os
         /\ Forall2 (fun arg o =>
                       infers arg o
                       /\ opt_type o ∈ [STRING; INTEGER; USER; CHANNEL])
                    (callback_annotations kick) os.
Proof.
  apply (declared_options_follow_annotations kick None None None ∅ 0%nat).
  repeat constructor.
Defined.

(** The options of [kick]: USER, STRING and, for [bool], INTEGER. *)
Example kick_option_types :
  exists command reg' h' os,
    slash_command kick None None None ∅ 0%nat = Ok ((command, reg'), h')
    /\ cmd_options command = Some os
    /\ opt_type <$> os = [USER; STRING; INTEGER]
    /\ opt_name <$> os = ["who"; "why"; "days"].
Proof. eexists _, _, _, _. repeat split; reflexivity. Qed.

Lemma infer_option_supported (arg : string * annotation) (h : nat) :
  supported arg -> exists o, infer_option arg h = Ok (o, S h).
Proof.
  intros [t Ht]. unfold infer_option, bind, lift. rewrite Ht.
  by eexists.
Qed.

(** X13: when the annotations before it are classes deriving from [str],
    [int], [discord.User] or [discord.abc.GuildChannel], the first
    annotation that is not a class makes [slash_command] raise [TypeError],
    and the first one that is a class deriving from [discord.Role] and from
    none of those makes it raise [AttributeError] (line 359), whatever
    follows. *)
Theorem first_untyped_annotation_decides :
  forall callback name description guild_id reg h before arg after e,
    callback_annotations callback = before ++ arg :: after ->
    Forall (fun arg => typed_before_line_358 (snd arg) = true) before ->
    raised_before_line_360 (snd arg) = Some e ->
    slash_command callback name description guild_id reg h = Raise e.
Proof.
  intros callback name description guild_id reg h before arg after e
    Hannotations Hbefore Harg.
  apply raised_before_line_360_raises in Harg.
  assert (pmap infer_option (before ++ arg :: after) h = Raise e) as Hloop.
  { clear Hannotations. revert h.
    induction Hbefore as [|a before Ha _ IH]; intros h.
    - change ([] ++ arg :: after) with (arg :: after). rewrite pmap_cons.
      unfold infer_option, bind, lift. by rewrite Harg.
    - change ((a :: before) ++ arg :: after)
        with (a :: (before ++ arg :: after)).
      rewrite pmap_cons.
      apply typed_before_line_358_supported in Ha.
      destruct (infer_option_supported a h Ha) as [o ->].
      cbv beta iota. by rewrite IH. }
  rewrite slash_command_unfold, Hannotations.
  destruct before as [|b before]; cbn [app] in *; by rewrite Hloop.
Qed.

Lemma grant_raises_AttributeError :
  slash_command grant None None None ∅ 0%nat = Raise AttributeError.
Proof.
  apply (first_untyped_annotation_decides grant None None None ∅ 0%nat
           [("n", AnnClass Class_int)] ("role", AnnClass Class_Role)
           [("why", AnnClass Class_str)]).
  - reflexivity.
  - repeat constructor.
  - reflexivity.
Defined.

(** ** Staging under two scopes *)

(** X14: staging under two different scopes gives the same dictionary in
    either order. *)
Theorem stage_commutes_across_scopes :
  forall g1 c1 g2 c2 reg,
    g1 <> g2 ->
    stage g1 c1 (stage g2 c2 reg) = stage g2 c2 (stage g1 c1 reg).
Proof.
  intros g1 c1 g2 c2 reg Hne. apply map_eq. intros k.
  rewrite !stage_lookup. unfold staged_under. rewrite !stage_lookup.
  repeat case_decide; subst; done.
Qed.

Lemma stage_guild_then_global :
  stage (Some 7) ping_of_guild_7 (stage None ping_not_in_dm ∅)
  = stage None ping_not_in_dm (stage (Some 7) ping_of_guild_7 ∅).
Proof. by apply stage_commutes_across_scopes. Defined.

(** ** A pass that fails *)

Lemma guild_loop_stops (bot : Bot) (application_id : Z)
  (commands : list ApplicationCommand) (before : list Z) (guild : Z)
  (after : list Z) (e : exn) :
  (forall g, g ∈ before ->
     exists result,
       bot_http_request bot (guild_request application_id g commands)
       = Ok result) ->
  bot_http_request bot (guild_request application_id guild commands) = Raise e ->
  guild_loop bot application_id commands (before ++ guild :: after)
  = ((fun g => guild_request application_id g commands) <$> (before ++ [guild]),
     Raise e).
Proof.
  intros Hbefore Hguild. induction before as [|g before IH]; simpl.
  - rewrite map_id. unfold guild_request in Hguild. by rewrite Hguild.
  - rewrite map_id.
    destruct (Hbefore g) as [result Hg]; [by left|].
    unfold guild_request in Hg. rewrite Hg, IH; [done|].
    intros g' Hg'. apply Hbefore. by right.
Qed.

(** X15: a pass in which [application_info] raises sends nothing; a pass in
    which the request for a guild raises has sent one request to each guild
    up to that one, sends none to the guilds after it, and ends with that
    exception; in both cases the staging dictionary is as before. *)
Theorem failed_pass_stops_at_first_failure :
  (forall bot reg e,
     bot_application_info bot = Raise e ->
     register_commands bot reg = ([], reg, Raise e))
  /\ (forall bot reg application_id before guild after e,
        bot_application_info bot = Ok application_id ->
        bot_guilds bot = before ++ guild :: after ->
        (forall g, g ∈ before ->
           exists result,
             bot_http_request bot (guild_request application_id g []) = Ok result) ->
        bot_http_request bot (guild_request application_id guild []) = Raise e ->
        register_commands bot reg
        = ((fun g => guild_request application_id g []) <$> (before ++ [guild]),
           reg, Raise e)).
Proof.
  split.
  - intros bot reg e Hinfo. unfold register_commands. by rewrite Hinfo.
  - intros bot reg application_id before guild after e Hinfo Hguilds Hbefore
      Hguild.
    unfold register_commands. rewrite Hinfo, Hguilds.
    by rewrite (guild_loop_stops _ _ _ _ _ _ _ Hbefore Hguild).
Qed.

Lemma guild_3_is_not_reached :
  register_commands bot_refused_in_guild_2 ∅
  = ([guild_request 7 1 []; guild_request 7 2 []], ∅, Raise HTTPException).
Proof.
  apply (proj2 failed_pass_stops_at_first_failure
           bot_refused_in_guild_2 ∅ 7 [1] 2 [3] HTTPException);
    try reflexivity.
  intros g Hg. apply list_elem_of_singleton in Hg as ->. by exists [].
Defined.

(** ** Command kinds *)

(** X17: the three command kinds have three different wire integers; given
    as its integer, a kind is stored as the member, and a command built
    without [type] is a chat-input command. *)
Theorem command_kind_is_recovered_from_its_integer :
  NoDup (CommandType_value <$> CommandType_names)
  /\ (forall t name description guild_id h,
        exists c,
          ApplicationCommand_init
            {| ck_name := Some name; ck_description := Some description;
               ck_type := Some (TypeInt (CommandType_value t));
               ck_guild_id := guild_id; ck_callback := None; ck_id := None;
               ck_application_id := None; ck_version := None;
               ck_options := None; ck_default_permission := None;
               ck_default_member_permissions := None;
               ck_dm_permission := None; ck_cog := None |} h = Ok (c, h)
          /\ cmd_type c = t)
  /\ (forall name description guild_id h,
        exists c,
          ApplicationCommand_init
            {| ck_name := Some name; ck_description := Some description;
               ck_type := None;
               ck_guild_id := guild_id; ck_callback := None; ck_id := None;
               ck_application_id := None; ck_version := None;
               ck_options := None; ck_default_permission := None;
               ck_default_member_permissions := None;
               ck_dm_permission := None; ck_cog := None |} h = Ok (c, h)
          /\ cmd_type c = CHAT_INPUT
          /\ cmd_default_permission c = true).
Proof.
  split; [|split].
  - by apply (bool_decide_unpack _).
  - intros t name description guild_id h. eexists.
    erewrite ApplicationCommand_init_unfold by done. simpl.
    rewrite CommandType_call_value. done.
  - intros. by eexists.
Qed.
